(** * HomeComponent of the todo application: a shallow embedding

    The component of [src/app/pages/home/home.component.ts] is embedded as
    a state-and-fault monad over a [World]: a heap of [Todo] objects, a
    heap of [Todo[]] arrays, the fields of the component and the key-value
    store.  Object identity is kept: the two array fields hold references,
    arrays hold references to objects, and [unshift] and the title
    assignment of [editTodo] update the heap in place. *)

From Stdlib Require Import ZArith NArith Ascii String.
From stdpp Require Import base option list gmap.

Local Open Scope Z_scope.
Local Open Scope nat_scope.

(** ** Strings

    A JavaScript string is a sequence of UTF-16 code units. *)

Definition jsstring : Type := list N.

Definition str (s : string) : jsstring :=
  map N_of_ascii (list_ascii_of_string s).

(** [WhiteSpace] and [LineTerminator] of ECMAScript, the code units that
    [String.prototype.trim] strips. *)
Definition isWhiteSpace (c : N) : bool :=
  ((c =? 0x9) || (c =? 0xA) || (c =? 0xB) || (c =? 0xC) || (c =? 0xD)
   || (c =? 0x20) || (c =? 0xA0) || (c =? 0x1680)
   || ((0x2000 <=? c) && (c <=? 0x200A))
   || (c =? 0x2028) || (c =? 0x2029) || (c =? 0x202F) || (c =? 0x205F)
   || (c =? 0x3000) || (c =? 0xFEFF))%N.

Fixpoint trimStart (s : jsstring) : jsstring :=
  match s with
  | [] => []
  | c :: s' => if isWhiteSpace c then trimStart s' else s
  end.

Definition trimEnd (s : jsstring) : jsstring := rev (trimStart (rev s)).

Definition trim (s : jsstring) : jsstring := trimEnd (trimStart s).

(** ** Data model *)

(** Modelled from the spec: the interface [Todo] is declared in
    [src/app/models/todo.interface], which is not among the sources at
    hand.  The spec gives [{id: integer, title: string, completed:
    boolean}], and these are the fields of the object literal in
    [addNewTodo]. *)
Record Todo : Type := mkTodo {
  id : Z;
  title : jsstring;
  completed : bool
}.

#[global] Instance Todo_eq_dec : EqDecision Todo.
Proof. solve_decision. Defined.

(** A reference is an index in one of the two heaps. *)
Abbreviation ref := nat (only parsing).

Record KeyboardEvent : Type := mkKeyboardEvent {
  key : jsstring;
  (** [event.target.value], the text of the input element *)
  value : jsstring
}.

Record World : Type := mkWorld {
  (** heap of [Todo] objects *)
  objs : list Todo;
  (** heap of [Todo[]] arrays *)
  arrs : list (list ref);
  (** fields of the component *)
  todos : ref;
  tempTodos : ref;
  editMode : bool;
  todoSelectedToEdit : option ref;
  currentUrl : jsstring;
  (** collaborators *)
  localStorage : gmap jsstring (list Todo);
  router_url : jsstring
}.

Definition set_objs (o : list Todo) (w : World) : World :=
  mkWorld o (arrs w) (todos w) (tempTodos w) (editMode w)
          (todoSelectedToEdit w) (currentUrl w) (localStorage w) (router_url w).
Definition set_arrs (a : list (list ref)) (w : World) : World :=
  mkWorld (objs w) a (todos w) (tempTodos w) (editMode w)
          (todoSelectedToEdit w) (currentUrl w) (localStorage w) (router_url w).
Definition set_todos (r : ref) (w : World) : World :=
  mkWorld (objs w) (arrs w) r (tempTodos w) (editMode w)
          (todoSelectedToEdit w) (currentUrl w) (localStorage w) (router_url w).
Definition set_tempTodos (r : ref) (w : World) : World :=
  mkWorld (objs w) (arrs w) (todos w) r (editMode w)
          (todoSelectedToEdit w) (currentUrl w) (localStorage w) (router_url w).
Definition set_editMode (b : bool) (w : World) : World :=
  mkWorld (objs w) (arrs w) (todos w) (tempTodos w) b
          (todoSelectedToEdit w) (currentUrl w) (localStorage w) (router_url w).
Definition set_todoSelectedToEdit (r : option ref) (w : World) : World :=
  mkWorld (objs w) (arrs w) (todos w) (tempTodos w) (editMode w)
          r (currentUrl w) (localStorage w) (router_url w).
Definition set_currentUrl (u : jsstring) (w : World) : World :=
  mkWorld (objs w) (arrs w) (todos w) (tempTodos w) (editMode w)
          (todoSelectedToEdit w) u (localStorage w) (router_url w).
Definition set_localStorage (s : gmap jsstring (list Todo)) (w : World) : World :=
  mkWorld (objs w) (arrs w) (todos w) (tempTodos w) (editMode w)
          (todoSelectedToEdit w) (currentUrl w) s (router_url w).

(** ** The monad of methods

    A method takes a world to a result and a new world, or faults ([None]:
    an uncaught [TypeError], as when a property of [undefined] is read). *)

Definition M (A : Type) : Type := World -> option (A * World).

Definition ret {A} (a : A) : M A := fun w => Some (a, w).
Definition bind {A B} (m : M A) (k : A -> M B) : M B :=
  fun w => match m w with
           | Some (a, w') => k a w'
           | None => None
           end.
Definition fault {A} : M A := fun _ => None.
Definition gets {A} (f : World -> A) : M A := fun w => Some (f w, w).
Definition modify (f : World -> World) : M unit := fun w => Some (tt, f w).
Definition lift {A} (o : World -> option A) : M A :=
  fun w => match o w with Some a => Some (a, w) | None => None end.

Notation "'let!' x ':=' m 'in' k" := (bind m (fun x => k))
  (at level 10, x name, m at level 100, k at level 200).
Notation "m ';;' k" := (bind m (fun _ => k))
  (at level 100, k at level 200, right associativity).

Fixpoint mapM' {A B} (f : A -> M B) (l : list A) : M (list B) :=
  match l with
  | [] => ret []
  | x :: l' => let! y := f x in let! ys := mapM' f l' in ret (y :: ys)
  end.

Fixpoint filterM' {A} (p : A -> M bool) (l : list A) : M (list A) :=
  match l with
  | [] => ret []
  | x :: l' =>
      let! b := p x in
      let! ys := filterM' p l' in
      ret (if b then x :: ys else ys)
  end.

(** *** Heap primitives *)

(** Object literal or spread: a new object. *)
Definition new_obj (t : Todo) : M ref :=
  fun w => Some (length (objs w), set_objs (objs w ++ [t]) w).
Definition read_obj (r : ref) : M Todo := lift (fun w => objs w !! r).
Definition write_obj (r : ref) (t : Todo) : M unit :=
  read_obj r;; modify (fun w => set_objs (<[r := t]> (objs w)) w).

Definition new_array (l : list ref) : M ref :=
  fun w => Some (length (arrs w), set_arrs (arrs w ++ [l]) w).
Definition read_array (a : ref) : M (list ref) := lift (fun w => arrs w !! a).
Definition write_array (a : ref) (l : list ref) : M unit :=
  read_array a;; modify (fun w => set_arrs (<[a := l]> (arrs w)) w).

(** [Array.prototype.map], [filter] and [unshift], and [length]. *)
Definition array_map (f : ref -> M ref) (a : ref) : M ref :=
  let! l := read_array a in
  let! l' := mapM' f l in
  new_array l'.
Definition array_filter (p : ref -> M bool) (a : ref) : M ref :=
  let! l := read_array a in
  let! l' := filterM' p l in
  new_array l'.
Definition array_unshift (a : ref) (x : ref) : M unit :=
  let! l := read_array a in
  write_array a (x :: l).
Definition array_length (a : ref) : M nat :=
  let! l := read_array a in
  ret (length l).

(** ** The key-value store

    Modelled from the spec: [LocalStorageService] is not part of the
    sources at hand.  The spec gives [getItem(key) -> value|undefined] and
    [setItem(key, value) -> void], synchronous, the value under a key being
    a JSON-serializable sequence of [{id, title, completed}].  So the store
    keeps values, not references: [setItem] stores the field values of the
    array it is given, [getItem] hands out a new array of new objects, or
    [undefined] ([None]) for a key that was never set. *)

Definition serialize (a : ref) : M (list Todo) :=
  let! l := read_array a in
  mapM' read_obj l.

Definition setItem (k : jsstring) (a : ref) : M unit :=
  let! v := serialize a in
  modify (fun w => set_localStorage (<[k := v]> (localStorage w)) w).

Definition getItem (k : jsstring) : M (option ref) :=
  let! s := gets localStorage in
  match s !! k with
  | None => ret None
  | Some v =>
      let! l := mapM' new_obj v in
      let! a := new_array l in
      ret (Some a)
  end.

(** ** The component *)

(** Field initialisers and constructor: two distinct empty arrays. *)
Definition construct (url : jsstring) (store : gmap jsstring (list Todo)) : World :=
  mkWorld [] [[]; []] 0 1 false None [] store url.

Definition saveTodos : M unit :=
  let! url := gets currentUrl in
  if decide (url = str "/completed") then
    let! a := gets todos in
    setItem (str "todos") a
  else
    let! a := gets tempTodos in
    setItem (str "todos") a.

Definition filterTodos : M unit :=
  let! url := gets currentUrl in
  if decide (url = str "/completed") then
    let! a := gets todos in
    let! a' := array_filter (fun r => let! t := read_obj r in ret (completed t)) a in
    modify (set_tempTodos a')
  else if decide (url = str "/pending") then
    let! a := gets todos in
    let! a' := array_filter (fun r => let! t := read_obj r in ret (negb (completed t))) a in
    modify (set_tempTodos a')
  else
    let! a := gets todos in
    modify (set_tempTodos a).

Definition ngOnInit : M unit :=
  let! url := gets router_url in
  modify (set_currentUrl url);;
  let! v := getItem (str "todos") in
  match v with
  | Some _ =>
      let! v' := getItem (str "todos") in
      match v' with
      | Some a => modify (set_todos a);; filterTodos
      | None => fault
      end
  | None => ret tt
  end.

(** [now] is the value of [Date.now()].  The result is the text of the
    input element after the handler has run. *)
Definition addNewTodo (now : Z) (event : KeyboardEvent) : M jsstring :=
  let title := trim (value event) in
  let! newTodo := new_obj (mkTodo now title false) in
  let! input_value :=
    (if decide (key event = str "Enter") then
       let! a := gets tempTodos in
       array_unshift a newTodo;;
       ret []
     else ret (value event)) in
  saveTodos;;
  ret input_value.

Definition toggleCheck (todo : ref) : M unit :=
  let! a := gets tempTodos in
  let! a' := array_map (fun item =>
      let! t := read_obj todo in
      let! i := read_obj item in
      if decide (id t = id i) then
        new_obj (mkTodo (id i) (title i) (negb (completed i)))
      else ret item) a in
  modify (set_tempTodos a');;
  saveTodos.

Definition deleteTodo (Todo : ref) : M unit :=
  let! a := gets tempTodos in
  let! a' := array_filter (fun item =>
      let! i := read_obj item in
      let! t := read_obj Todo in
      ret (negb (bool_decide (id i = id t)))) a in
  modify (set_tempTodos a');;
  let! b := gets tempTodos in
  modify (set_todos b);;
  saveTodos.

Definition selectTodoToEdit (Todo : ref) : M unit :=
  modify (set_editMode true);;
  modify (set_todoSelectedToEdit (Some Todo)).

Definition editTodo (event : KeyboardEvent) : M unit :=
  let title' := trim (value event) in
  let! sel := gets todoSelectedToEdit in
  match sel with
  | None => fault
  | Some s =>
      let! t := read_obj s in
      write_obj s (mkTodo (id t) title' (completed t));;
      if decide (key event = str "Escape") then
        modify (set_editMode false)
      else
        (if decide (key event = str "Enter") then
           let! a := gets tempTodos in
           let! a' := array_map (fun Todo =>
               let! e := read_obj s in
               let! i := read_obj Todo in
               if decide (id e = id i) then
                 new_obj (mkTodo (id e) (title e) (completed e))
               else ret Todo) a in
           modify (set_tempTodos a');;
           modify (set_editMode false)
         else ret tt);;
        saveTodos
  end.

Definition pendingTodos : M nat :=
  let! a := gets todos in
  let! a' := array_filter (fun r => let! t := read_obj r in ret (negb (completed t))) a in
  array_length a'.

Definition clearCompleted : M unit :=
  let! url := gets currentUrl in
  if decide (url = str "/completed") then
    let! e := new_array [] in
    modify (set_tempTodos e);;
    let! a := gets todos in
    let! a' := array_filter (fun r =>
        let! t := read_obj r in ret (bool_decide (completed t = false))) a in
    modify (set_todos a');;
    saveTodos
  else
    let! a := gets tempTodos in
    let! a' := array_filter (fun r =>
        let! t := read_obj r in ret (bool_decide (completed t = false))) a in
    modify (set_todos a');;
    let! b := gets todos in
    modify (set_tempTodos b);;
    saveTodos.

(** ** Observations

    The field values of the entries of an array, and with them the two
    lists of the component as sequences of [{id, title, completed}]. *)

Definition deref (w : World) (a : ref) : option (list Todo) :=
  l ← arrs w !! a; mapM (fun r => objs w !! r) l.

Definition allTodos (w : World) : option (list Todo) := deref w (todos w).
Definition visibleTodos (w : World) : option (list Todo) := deref w (tempTodos w).
Definition stored (w : World) : option (list Todo) := localStorage w !! str "todos".

(** ** Auxiliary definitions

    Names for what the statements below speak of. *)

(** The field values behind a list of references. *)
Definition values (o : list Todo) (l : list ref) : option (list Todo) :=
  mapM (fun r => o !! r) l.

(** The list [saveTodos] writes: [todos] on [/completed], [tempTodos]
    on every other route. *)
Definition route_selected {A} (url : jsstring) (all visible : A) : A :=
  if decide (url = str "/completed") then all else visible.

(** The candidate that [addNewTodo] builds. *)
Definition candidate (now : Z) (rawText : jsstring) : Todo :=
  mkTodo now (trim rawText) false.

Definition Enter (rawText : jsstring) : KeyboardEvent :=
  mkKeyboardEvent (str "Enter") rawText.

(** A sequence of [addNewTodo] calls by the Enter key, each with its own
    clock value and input text. *)
Fixpoint addMany (calls : list (Z * jsstring)) : M unit :=
  match calls with
  | [] => ret tt
  | (now, rawText) :: calls' =>
      addNewTodo now (Enter rawText);; addMany calls'
  end.

Definition Escape (rawText : jsstring) : KeyboardEvent :=
  mkKeyboardEvent (str "Escape") rawText.

(** The entry [toggleCheck] puts in place of an entry with the id [i]. *)
Definition toggled (i : Z) (t : Todo) : Todo :=
  if decide (i = id t) then mkTodo (id t) (title t) (negb (completed t)) else t.

(** The filter of a route, in the words of the spec: [/completed] keeps
    the completed entries, [/pending] the others, any other route keeps
    all. *)
Definition route_filter (url : jsstring) (l : list Todo) : list Todo :=
  if decide (url = str "/completed") then filter (fun t => completed t = true) l
  else if decide (url = str "/pending") then filter (fun t => completed t = false) l
  else l.

(** The world a method leaves (the world it was given, had it faulted). *)
Definition exec {A} (m : M A) (w : World) : World :=
  match m w with Some (_, w') => w' | None => w end.

Definition todo_a (c : bool) : Todo := mkTodo 1 (str "a") c.
Definition todo_b (c : bool) : Todo := mkTodo 2 (str "b") c.

(** A component initialised on the route [url] from a store that holds
    [l] under [todos]. *)
Definition initialised (url : string) (l : list Todo) : World :=
  exec ngOnInit (construct (str url) {[ str "todos" := l ]}).

(** Route [/pending], stored: a pending [a] and a completed [b].  The
    objects of [allTodos] are 2 and 3, [visibleTodos] is object 2. *)
Definition world_pending : World :=
  initialised "/pending" [todo_a false; todo_b true].

(** Route [/], stored: a completed [a] and a pending [b]; both fields
    are the same array, of the objects 2 and 3. *)
Definition world_all : World := initialised "/" [todo_a true; todo_b false].

(** Route [/completed], stored: a completed [a], which is object 1. *)
Definition world_completed : World := initialised "/completed" [todo_a true].

(** Route [/], nothing stored: both lists empty. *)
Definition world_empty : World := exec ngOnInit (construct (str "/") ∅).

(** Route [/], stored: a pending [a], object 1, selected for editing. *)
Definition world_editing : World :=
  exec (selectTodoToEdit 1) (initialised "/" [todo_a false]).

(** Route [/], stored: a pending [a] under [todos] and a list under a
    second key, [theme]. *)
Definition world_two_keys : World :=
  exec ngOnInit
    (construct (str "/")
       (<[str "theme" := [todo_b true]]> {[ str "todos" := [todo_a false] ]})).

(** The object [t] with the title [s], as the assignment of [editTodo]
    leaves it. *)
Definition retitled (t : Todo) (s : jsstring) : Todo :=
  mkTodo (id t) s (completed t).

(** The entries of the array [l], read as [vs] before, once the object
    [r] holds [e]. *)
Definition edited (r : ref) (e : Todo) (l : list ref) (vs : list Todo)
    : list Todo :=
  zip_with (fun r' t => if decide (r' = r) then e else t) l vs.

(** The entry [editTodo] by Enter puts in place of [t] when the selected
    todo is [e]. *)
Definition replaced (e t : Todo) : Todo :=
  if decide (id e = id t) then e else t.

(** Every run of [m] relates the world before to the world after by [R]. *)
Definition keeps (R : relation World) {A} (m : M A) : Prop :=
  forall w a w', m w = Some (a, w') -> R w w'.

(** No object is lost: the heap of objects does not shrink. *)
Definition objs_grow : relation World :=
  fun w w' => length (objs w) <= length (objs w').

(** The keys of the store other than [todos] hold what they held. *)
Definition other_keys_kept : relation World :=
  fun w w' => forall k, k <> str "todos" ->
                        localStorage w' !! k = localStorage w !! k.

(** The field or collaborator [f] is as it was. *)
Definition same {A} (f : World -> A) : relation World :=
  fun w w' => f w' = f w.


(** ** Reading the heap *)

Lemma deref_values w a l :
  arrs w !! a = Some l -> deref w a = values (objs w) l.
Proof. intros H. unfold deref, values. by rewrite H. Qed.

Lemma deref_Some w a vs :
  deref w a = Some vs ->
  exists l, arrs w !! a = Some l /\ values (objs w) l = Some vs.
Proof.
  unfold deref, values. destruct (arrs w !! a) as [l|]; simpl; [|done].
  intros H. by exists l.
Qed.

Lemma values_Forall2 o l vs :
  values o l = Some vs <-> Forall2 (fun r t => o !! r = Some t) l vs.
Proof. apply mapM_Some. Qed.

Lemma values_app o ext l vs :
  values o l = Some vs -> values (o ++ ext) l = Some vs.
Proof.
  rewrite !values_Forall2. intros H. eapply Forall2_impl; [exact H|].
  intros r t Hr. by apply lookup_app_l_Some.
Qed.

Lemma values_length o l vs : values o l = Some vs -> length vs = length l.
Proof. rewrite values_Forall2. intros H. symmetry. by eapply Forall2_length. Qed.

Lemma values_cons o r l t vs :
  o !! r = Some t -> values o l = Some vs -> values o (r :: l) = Some (t :: vs).
Proof. rewrite !values_Forall2. by constructor. Qed.

Lemma values_seq o v : values (o ++ v) (seq (length o) (length v)) = Some v.
Proof.
  rewrite values_Forall2. revert o. induction v as [|t v IH]; intros o; simpl.
  - constructor.
  - constructor.
    + by rewrite list_lookup_middle.
    + specialize (IH (o ++ [t])). rewrite length_app in IH. simpl in IH.
      rewrite <- (assoc_L (++)) in IH. simpl in IH.
      by replace (length o + 1) with (S (length o)) in IH by lia.
Qed.

(** ** Running the primitives *)

Lemma bind_Some {A B} (m : M A) (k : A -> M B) w a w' :
  m w = Some (a, w') -> bind m k w = k a w'.
Proof. unfold bind. by intros ->. Qed.

Lemma read_obj_ok w r t : objs w !! r = Some t -> read_obj r w = Some (t, w).
Proof. unfold read_obj, lift. by intros ->. Qed.

Lemma read_array_ok w a l : arrs w !! a = Some l -> read_array a w = Some (l, w).
Proof. unfold read_array, lift. by intros ->. Qed.

Lemma mapM'_read_obj w l vs :
  values (objs w) l = Some vs -> mapM' read_obj l w = Some (vs, w).
Proof.
  rewrite values_Forall2. induction 1 as [|r t l vs Hr _ IH]; simpl; [done|].
  rewrite (bind_Some _ _ _ _ _ (read_obj_ok _ _ _ Hr)).
  by rewrite (bind_Some _ _ _ _ _ IH).
Qed.

Lemma serialize_ok w a vs : deref w a = Some vs -> serialize a w = Some (vs, w).
Proof.
  intros (l & Ha & Hl)%deref_Some. unfold serialize.
  rewrite (bind_Some _ _ _ _ _ (read_array_ok _ _ _ Ha)).
  by apply mapM'_read_obj.
Qed.

Lemma setItem_ok w k a vs :
  deref w a = Some vs ->
  setItem k a w = Some (tt, set_localStorage (<[k := vs]> (localStorage w)) w).
Proof.
  intros H. unfold setItem. by rewrite (bind_Some _ _ _ _ _ (serialize_ok _ _ _ H)).
Qed.

Lemma saveTodos_ok w all vis :
  allTodos w = Some all -> visibleTodos w = Some vis ->
  saveTodos w =
    Some (tt, set_localStorage
                (<[str "todos" := route_selected (currentUrl w) all vis]>
                   (localStorage w)) w).
Proof.
  intros Ha Hv. unfold saveTodos, route_selected, bind, gets.
  destruct (decide (currentUrl w = str "/completed")); by apply setItem_ok.
Qed.

Lemma filterM'_pure (p : ref -> M bool) (f : Todo -> bool) w l vs :
  (forall r t, objs w !! r = Some t -> p r w = Some (f t, w)) ->
  values (objs w) l = Some vs ->
  exists l', filterM' p l w = Some (l', w)
             /\ values (objs w) l' = Some (filter (fun t => f t = true) vs).
Proof.
  intros Hp. rewrite values_Forall2.
  induction 1 as [|r t l vs Hr _ (l' & IH & Hl')]; simpl.
  - by exists [].
  - rewrite (bind_Some _ _ _ _ _ (Hp _ _ Hr)), (bind_Some _ _ _ _ _ IH).
    unfold ret. rewrite filter_cons. destruct (f t) eqn:E.
    + exists (r :: l'). split; [done|].
      rewrite decide_True by done. by apply values_cons.
    + exists l'. split; [done|]. by rewrite decide_False by done.
Qed.

Lemma array_filter_ok (p : ref -> M bool) (f : Todo -> bool) w a vs :
  (forall r t, objs w !! r = Some t -> p r w = Some (f t, w)) ->
  deref w a = Some vs ->
  exists l', array_filter p a w
             = Some (length (arrs w), set_arrs (arrs w ++ [l']) w)
             /\ values (objs w) l' = Some (filter (fun t => f t = true) vs).
Proof.
  intros Hp (l & Ha & Hl)%deref_Some.
  destruct (filterM'_pure p f w l vs Hp Hl) as (l' & Hrun & Hl').
  exists l'. split; [|done]. unfold array_filter.
  rewrite (bind_Some _ _ _ _ _ (read_array_ok _ _ _ Ha)).
  by rewrite (bind_Some _ _ _ _ _ Hrun).
Qed.

Lemma read_field_pure (f : Todo -> bool) w r t :
  objs w !! r = Some t ->
  (let! t := read_obj r in ret (f t)) w = Some (f t, w).
Proof. intros H. by rewrite (bind_Some _ _ _ _ _ (read_obj_ok _ _ _ H)). Qed.

(** Older arrays and objects are still there after an allocation, and
    the array allocated last is read back. *)
Lemma deref_grown w w' a vs ext exta :
  objs w' = objs w ++ ext -> arrs w' = arrs w ++ exta ->
  deref w a = Some vs -> deref w' a = Some vs.
Proof.
  intros Ho Ha (l & Hl & Hv)%deref_Some. unfold deref. rewrite Ho, Ha.
  rewrite (lookup_app_l_Some _ _ _ _ Hl). simpl. by apply values_app.
Qed.

Lemma deref_last w' A l :
  arrs w' = A ++ [l] -> deref w' (length A) = values (objs w') l.
Proof. intros Ha. unfold deref. rewrite Ha. by rewrite list_lookup_middle. Qed.

Lemma read_array_last w A l :
  arrs w = A ++ [l] -> read_array (length A) w = Some (l, w).
Proof. intros H. apply read_array_ok. rewrite H. by apply list_lookup_middle. Qed.

Lemma filter_negb_completed (l : list Todo) :
  filter (fun t => negb (completed t) = true) l
  = filter (fun t => completed t = false) l.
Proof. apply list_filter_iff. intros t. by destruct (completed t). Qed.

Lemma filter_bool_decide_completed (l : list Todo) :
  filter (fun t => bool_decide (completed t = false) = true) l
  = filter (fun t => completed t = false) l.
Proof. apply list_filter_iff. intros t. by rewrite bool_decide_eq_true. Qed.

Lemma bind_gets {A B} (f : World -> A) (k : A -> M B) w :
  bind (gets f) k w = k (f w) w.
Proof. done. Qed.
Lemma bind_modify {B} (f : World -> World) (k : unit -> M B) w :
  bind (modify f) k w = k tt (f w).
Proof. done. Qed.
Lemma bind_ret {A B} (a : A) (k : A -> M B) w : bind (ret a) k w = k a w.
Proof. done. Qed.
Lemma bind_new_array {B} l (k : ref -> M B) w :
  bind (new_array l) k w = k (length (arrs w)) (set_arrs (arrs w ++ [l]) w).
Proof. done. Qed.
Lemma bind_new_obj {B} t (k : ref -> M B) w :
  bind (new_obj t) k w = k (length (objs w)) (set_objs (objs w ++ [t]) w).
Proof. done. Qed.

Lemma bind_assoc {A B C} (m : M A) (f : A -> M B) (g : B -> M C) w :
  bind (bind m f) g w = bind m (fun x => bind (f x) g) w.
Proof. unfold bind. by destruct (m w) as [[a w']|]. Qed.

Ltac run_simple :=
  repeat (progress
            (rewrite ?bind_assoc, ?bind_gets, ?bind_modify, ?bind_ret,
               ?bind_new_array, ?bind_new_obj; cbv beta match)).
Ltac run_with H := (erewrite bind_Some; [|exact H]); cbv beta match.

Lemma allTodos_set_localStorage s w :
  allTodos (set_localStorage s w) = allTodos w.
Proof. done. Qed.
Lemma visibleTodos_set_localStorage s w :
  visibleTodos (set_localStorage s w) = visibleTodos w.
Proof. done. Qed.

(** ** The claims *)

(** C7.  [pendingTodos] returns the number of entries of [todos] whose
    [completed] is false: a function of [allTodos] alone, whatever the
    route and [tempTodos] are.  Evaluating it leaves every field of the
    component, every object, both lists and the store as they were; only
    the intermediate array of [filter] is allocated. *)
Theorem pendingTodos_counts_allTodos w all vis :
  allTodos w = Some all -> visibleTodos w = Some vis ->
  exists w',
    pendingTodos w
    = Some (length (filter (fun t => completed t = false) all), w')
    /\ allTodos w' = Some all /\ visibleTodos w' = Some vis
    /\ objs w' = objs w
    /\ todos w' = todos w /\ tempTodos w' = tempTodos w
    /\ editMode w' = editMode w
    /\ todoSelectedToEdit w' = todoSelectedToEdit w
    /\ currentUrl w' = currentUrl w
    /\ localStorage w' = localStorage w.
Proof.
  intros Hall Hvis. unfold pendingTodos, bind at 1, gets.
  destruct (array_filter_ok
              (fun r => let! t := read_obj r in ret (negb (completed t)))
              (fun t => negb (completed t)) w (todos w) all)
    as (l' & Hrun & Hl');
    [intros; by apply (read_field_pure (fun t => negb (completed t))) | done |].
  rewrite (bind_Some _ _ _ _ _ Hrun). unfold array_length.
  rewrite (bind_Some _ _ _ _ _
             (read_array_last (set_arrs (arrs w ++ [l']) w) (arrs w) l' eq_refl)).
  rewrite filter_negb_completed in Hl'. apply values_length in Hl'.
  eexists. split; [unfold ret; by rewrite Hl'|].
  split; [|split].
  - by apply (deref_grown w _ _ _ [] [l']); [simpl; by rewrite app_nil_r|..].
  - by apply (deref_grown w _ _ _ [] [l']); [simpl; by rewrite app_nil_r|..].
  - done.
Qed.

Lemma clearCompleted_pred_pure w r t :
  objs w !! r = Some t ->
  (let! t := read_obj r in ret (bool_decide (completed t = false))) w
  = Some (bool_decide (completed t = false), w).
Proof. apply (read_field_pure (fun t => bool_decide (completed t = false))). Qed.

(** C5.  After [clearCompleted] no entry with [completed] true is left in
    [allTodos] or in [visibleTodos], on every route.  On [/completed]
    [visibleTodos] is emptied and [allTodos] keeps its own pending
    entries; on any other route both lists become the pending entries of
    [visibleTodos]. *)
Theorem clearCompleted_removes_completed w all vis :
  allTodos w = Some all -> visibleTodos w = Some vis ->
  exists w',
    clearCompleted w = Some (tt, w')
    /\ (currentUrl w = str "/completed" ->
        visibleTodos w' = Some []
        /\ allTodos w' = Some (filter (fun t => completed t = false) all))
    /\ (currentUrl w <> str "/completed" ->
        allTodos w' = Some (filter (fun t => completed t = false) vis)
        /\ visibleTodos w' = Some (filter (fun t => completed t = false) vis))
    /\ (forall l t,
          allTodos w' = Some l \/ visibleTodos w' = Some l ->
          t ∈ l -> completed t = false).
Proof.
  intros Hall Hvis. unfold clearCompleted. run_simple.
  destruct (decide (currentUrl w = str "/completed")) as [Hu|Hu].
  - run_simple.
    set (w2 := set_tempTodos _ _).
    assert (Hall2 : deref w2 (todos w) = Some all)
      by (by apply (deref_grown w _ _ _ [] [[]]); [simpl; by rewrite app_nil_r|..]).
    destruct (array_filter_ok
                (fun r => let! t := read_obj r in
                          ret (bool_decide (completed t = false)))
                (fun t => bool_decide (completed t = false))
                w2 (todos w2) all (clearCompleted_pred_pure w2) Hall2)
      as (l' & Hrun & Hl').
    rewrite filter_bool_decide_completed in Hl'.
    run_with Hrun. run_simple.
    set (w4 := set_todos _ _).
    assert (Ha4 : allTodos w4 = Some (filter (fun t => completed t = false) all)).
    { unfold allTodos. subst w4. simpl.
      rewrite (deref_last _ (arrs w ++ [[]]) l') by done. done. }
    assert (Hv4 : visibleTodos w4 = Some []).
    { unfold visibleTodos, deref. subst w4. simpl.
      rewrite <- (assoc_L (++)). simpl. by rewrite list_lookup_middle. }
    rewrite (saveTodos_ok _ _ _ Ha4 Hv4).
    eexists. split; [done|]. split; [|split].
    + intros _. split; [exact Hv4|exact Ha4].
    + done.
    + intros l t Hl Ht.
      rewrite allTodos_set_localStorage, visibleTodos_set_localStorage in Hl.
      rewrite Ha4, Hv4 in Hl. destruct Hl as [[= <-]|[= <-]].
      * by apply list_elem_of_filter in Ht as [? _].
      * by apply not_elem_of_nil in Ht.
  - run_simple.
    destruct (array_filter_ok
                (fun r => let! t := read_obj r in
                          ret (bool_decide (completed t = false)))
                (fun t => bool_decide (completed t = false))
                w (tempTodos w) vis (clearCompleted_pred_pure w) Hvis)
      as (l' & Hrun & Hl').
    rewrite filter_bool_decide_completed in Hl'.
    run_with Hrun. run_simple.
    set (w4 := set_tempTodos _ _).
    assert (Ha4 : allTodos w4 = Some (filter (fun t => completed t = false) vis)).
    { unfold allTodos. subst w4. simpl.
      rewrite (deref_last _ (arrs w) l') by done. done. }
    assert (Hv4 : visibleTodos w4 = Some (filter (fun t => completed t = false) vis))
      by exact Ha4.
    rewrite (saveTodos_ok _ _ _ Ha4 Hv4).
    eexists. split; [done|]. split; [|split].
    + done.
    + intros _. split; [exact Ha4|exact Hv4].
    + intros l t Hl Ht.
      rewrite allTodos_set_localStorage, visibleTodos_set_localStorage in Hl.
      rewrite Ha4, Hv4 in Hl.
      destruct Hl as [[= <-]|[= <-]]; by apply list_elem_of_filter in Ht as [? _].
Qed.

(** *** [addNewTodo] *)

Lemma write_array_ok w a l l' :
  arrs w !! a = Some l ->
  write_array a l' w = Some (tt, set_arrs (<[a := l']> (arrs w)) w).
Proof.
  intros H. unfold write_array. by run_with (read_array_ok _ _ _ H).
Qed.

Lemma array_unshift_ok w a l x :
  arrs w !! a = Some l ->
  array_unshift a x w = Some (tt, set_arrs (<[a := x :: l]> (arrs w)) w).
Proof.
  intros H. unfold array_unshift. run_with (read_array_ok _ _ _ H).
  by apply write_array_ok with l.
Qed.

(** What the lists hold after a new object was allocated and put in
    front of the array [a]. *)
Lemma deref_unshift w a l t b vs :
  arrs w !! a = Some l ->
  deref w b = Some vs ->
  deref (set_arrs (<[a := length (objs w) :: l]> (arrs w))
                  (set_objs (objs w ++ [t]) w)) b
  = Some (if decide (b = a) then t :: vs else vs).
Proof.
  intros Ha (lb & Hb & Hv)%deref_Some. unfold deref. simpl.
  destruct (decide (b = a)) as [->|Hne].
  - rewrite list_lookup_insert_eq by (by eapply lookup_lt_Some). simpl.
    assert (lb = l) as -> by congruence.
    apply values_cons; [by apply list_lookup_middle | by apply values_app].
  - rewrite list_lookup_insert_ne by done. rewrite Hb. simpl.
    by apply values_app.
Qed.

Lemma addNewTodo_Enter_run now rawText w all vis :
  allTodos w = Some all -> visibleTodos w = Some vis ->
  exists w',
    addNewTodo now (Enter rawText) w = Some ([], w')
    /\ visibleTodos w' = Some (candidate now rawText :: vis)
    /\ allTodos w'
       = Some (if decide (todos w = tempTodos w)
               then candidate now rawText :: all else all)
    /\ localStorage w'
       = <[str "todos" :=
             route_selected (currentUrl w)
               (if decide (todos w = tempTodos w)
                then candidate now rawText :: all else all)
               (candidate now rawText :: vis)]> (localStorage w)
    /\ todos w' = todos w /\ tempTodos w' = tempTodos w
    /\ editMode w' = editMode w
    /\ todoSelectedToEdit w' = todoSelectedToEdit w
    /\ currentUrl w' = currentUrl w.
Proof.
  intros Hall Hvis.
  destruct (deref_Some _ _ _ Hvis) as (l & Hl & Hv).
  unfold addNewTodo, Enter. cbn [key value]. run_simple.
  rewrite decide_True by done. run_simple.
  set (w1 := set_objs _ w).
  assert (Hl1 : arrs w1 !! tempTodos w1 = Some l) by exact Hl.
  run_with (array_unshift_ok _ _ _ (length (objs w)) Hl1). run_simple.
  pose proof (deref_unshift w (tempTodos w) l (candidate now rawText)
                (tempTodos w) vis Hl Hvis) as Hv2.
  rewrite decide_True in Hv2 by done.
  pose proof (deref_unshift w (tempTodos w) l (candidate now rawText)
                (todos w) all Hl Hall) as Ha2.
  run_with (saveTodos_ok _ _ _ Ha2 Hv2). run_simple.
  eexists. split; [done|]. split; [exact Hv2|]. split; [exact Ha2|]. done.
Qed.

Lemma addMany_runs calls w all vis :
  allTodos w = Some all -> visibleTodos w = Some vis ->
  exists w' all',
    addMany calls w = Some (tt, w')
    /\ allTodos w' = Some all'
    /\ visibleTodos w'
       = Some (rev (map (fun c => candidate c.1 c.2) calls) ++ vis).
Proof.
  revert w all vis. induction calls as [|[now rawText] calls IH];
    intros w all vis Hall Hvis; simpl.
  - by exists w, all.
  - destruct (addNewTodo_Enter_run now rawText w all vis Hall Hvis)
      as (w1 & Hrun & Hv1 & Ha1 & _).
    destruct (IH w1 _ _ Ha1 Hv1) as (w' & all' & Hrun' & Ha' & Hv').
    exists w', all'. split; [by run_with Hrun|]. split; [done|].
    by rewrite <- (assoc_L (++)).
Qed.

(** C4.  After any sequence of [addNewTodo] calls by Enter, one more such
    call makes [visibleTodos] exactly one entry longer and puts the new
    entry at index 0, with the trimmed text as title and [completed]
    false. *)
Theorem addNewTodo_Enter_prepends calls now rawText w all vis :
  allTodos w = Some all -> visibleTodos w = Some vis ->
  exists w1 vis1 w2 vis2 new,
    addMany calls w = Some (tt, w1)
    /\ visibleTodos w1 = Some vis1
    /\ addNewTodo now (Enter rawText) w1 = Some ([], w2)
    /\ visibleTodos w2 = Some vis2
    /\ length vis2 = S (length vis1)
    /\ vis2 !! 0 = Some new
    /\ title new = trim rawText
    /\ completed new = false
    /\ vis2 = new :: vis1.
Proof.
  intros Hall Hvis.
  destruct (addMany_runs calls w all vis Hall Hvis)
    as (w1 & all1 & Hrun1 & Ha1 & Hv1).
  destruct (addNewTodo_Enter_run now rawText w1 _ _ Ha1 Hv1)
    as (w2 & Hrun2 & Hv2 & _).
  by eexists w1, _, w2, _, (candidate now rawText).
Qed.

(** C8.  With any key other than Enter [addNewTodo] inserts nothing:
    both lists, both array fields and the arrays themselves stay as they
    were, the text of the input is kept, and [saveTodos] still runs and
    writes the list selected by the route under the key [todos]. *)
Theorem addNewTodo_other_key_only_saves now k rawText w all vis :
  k <> str "Enter" ->
  allTodos w = Some all -> visibleTodos w = Some vis ->
  exists w',
    addNewTodo now (mkKeyboardEvent k rawText) w = Some (rawText, w')
    /\ visibleTodos w' = Some vis /\ allTodos w' = Some all
    /\ todos w' = todos w /\ tempTodos w' = tempTodos w
    /\ arrs w' = arrs w
    /\ localStorage w'
       = <[str "todos" := route_selected (currentUrl w) all vis]>
           (localStorage w).
Proof.
  intros Hk Hall Hvis. unfold addNewTodo. cbn [key value]. run_simple.
  rewrite decide_False by done. run_simple.
  set (w1 := set_objs _ w).
  assert (Ha1 : allTodos w1 = Some all)
    by (by apply (deref_grown w _ _ _ [candidate now rawText] []);
        [|simpl; by rewrite app_nil_r|]).
  assert (Hv1 : visibleTodos w1 = Some vis)
    by (by apply (deref_grown w _ _ _ [candidate now rawText] []);
        [|simpl; by rewrite app_nil_r|]).
  run_with (saveTodos_ok _ _ _ Ha1 Hv1). run_simple.
  eexists. split; [done|]. by rewrite allTodos_set_localStorage,
    visibleTodos_set_localStorage.
Qed.

(** C10, amended.  [addNewTodo] does not check that the trimmed text is
    non-empty: by Enter a todo with the empty title and [completed] false
    is put in front of [visibleTodos], and [saveTodos] runs.  What it
    writes depends on the route: off [/completed] the stored list is the
    new [visibleTodos], with the empty todo first; on [/completed] it is
    [allTodos], which has the new todo only when the two fields are one
    array. *)
Theorem addNewTodo_accepts_empty_title now rawText w all vis :
  trim rawText = [] ->
  allTodos w = Some all -> visibleTodos w = Some vis ->
  exists w',
    addNewTodo now (Enter rawText) w = Some ([], w')
    /\ visibleTodos w' = Some (mkTodo now [] false :: vis)
    /\ (currentUrl w <> str "/completed" ->
        stored w' = Some (mkTodo now [] false :: vis))
    /\ (currentUrl w = str "/completed" ->
        stored w' = allTodos w'
        /\ (todos w <> tempTodos w -> stored w' = Some all)
        /\ (todos w = tempTodos w ->
            stored w' = Some (mkTodo now [] false :: all))).
Proof.
  intros Ht Hall Hvis.
  destruct (addNewTodo_Enter_run now rawText w all vis Hall Hvis)
    as (w' & Hrun & Hv & Ha & Hs & _).
  unfold candidate in *. rewrite Ht in *.
  exists w'. split; [done|]. split; [done|].
  unfold stored. rewrite Hs, lookup_insert_eq, Ha. unfold route_selected.
  split; intros Hu.
  - by rewrite decide_False.
  - rewrite decide_True by done. split; [done|].
    split; intros Hal; [by rewrite decide_False | by rewrite decide_True].
Qed.

(** *** [editTodo] *)

Lemma write_obj_ok w r t t' :
  objs w !! r = Some t ->
  write_obj r t' w = Some (tt, set_objs (<[r := t']> (objs w)) w).
Proof. intros H. unfold write_obj. by run_with (read_obj_ok _ _ _ H). Qed.

(** Reading an array after one object was assigned to in place: every
    entry that is this object shows the new fields. *)
Lemma values_insert o r t' l vs :
  r < length o ->
  values o l = Some vs ->
  values (<[r := t']> o) l
  = Some (zip_with (fun r' t => if decide (r' = r) then t' else t) l vs).
Proof.
  intros Hr. rewrite !values_Forall2.
  induction 1 as [|r' t l vs Hr' _ IH]; simpl; constructor; [|done].
  destruct (decide (r' = r)) as [->|Hne].
  - by rewrite list_lookup_insert_eq.
  - by rewrite list_lookup_insert_ne.
Qed.

(** C1.  With an entry of [tempTodos] selected for editing, [editTodo] by
    the Escape key returns without a fault, with [editMode] false and the
    store untouched; the title typed in has been assigned to the selected
    object all the same, so the entry of [visibleTodos] that is this
    object now has the trimmed text as title (its [id] and [completed]
    as before), and entries that are other objects are as they were. *)
Theorem editTodo_Escape_keeps_title rawText w r l i vis :
  todoSelectedToEdit w = Some r ->
  arrs w !! tempTodos w = Some l ->
  visibleTodos w = Some vis ->
  l !! i = Some r ->
  exists w' vis' old new,
    editTodo (Escape rawText) w = Some (tt, w')
    /\ editMode w' = false
    /\ localStorage w' = localStorage w
    /\ visibleTodos w' = Some vis'
    /\ vis !! i = Some old
    /\ vis' !! i = Some new
    /\ title new = trim rawText
    /\ id new = id old /\ completed new = completed old
    /\ (forall j r', l !! j = Some r' -> r' <> r -> vis' !! j = vis !! j).
Proof.
  intros Hsel Hl Hvis Hi.
  pose proof Hvis as Hv. unfold visibleTodos in Hv.
  rewrite (deref_values _ _ _ Hl) in Hv.
  pose proof Hv as HF. rewrite values_Forall2 in HF.
  destruct (Forall2_lookup_l _ _ _ _ _ HF Hi) as (old & Hold & Hr).
  unfold editTodo, Escape. cbn [key value]. run_simple. rewrite Hsel.
  run_with (read_obj_ok _ _ _ Hr).
  run_with (write_obj_ok _ _ _ (mkTodo (id old) (trim rawText) (completed old)) Hr).
  rewrite decide_True by done.
  pose proof (values_insert _ _ (mkTodo (id old) (trim rawText) (completed old))
                _ _ (lookup_lt_Some _ _ _ Hr) Hv) as Hv'.
  eexists _, _, old, (mkTodo (id old) (trim rawText) (completed old)).
  split; [done|]. split; [done|]. split; [done|].
  split; [unfold visibleTodos, deref; simpl; rewrite Hl; exact Hv'|].
  split; [done|].
  split; [rewrite lookup_zip_with, Hi, Hold; simpl; by rewrite decide_True|].
  split; [done|]. split; [done|]. split; [done|].
  intros j r' Hj Hne. rewrite lookup_zip_with, Hj. simpl.
  destruct (vis !! j); simpl; [by rewrite decide_False|done].
Qed.

(** *** [toggleCheck] *)

Lemma set_objs_same w : set_objs (objs w) w = w.
Proof. by destruct w. Qed.

(** [map] with a callback that copies some entries into new objects:
    the heap only grows, and the new array reads as the old one with the
    copy function applied. *)
Lemma mapM'_copy (cb : ref -> M ref) (g : Todo -> Todo) (P : World -> Prop) :
  (forall w ext, P w -> P (set_objs (objs w ++ ext) w)) ->
  (forall w r t, P w -> objs w !! r = Some t ->
     exists ext r', cb r w = Some (r', set_objs (objs w ++ ext) w)
                    /\ (objs w ++ ext) !! r' = Some (g t)) ->
  forall l w vs, P w -> values (objs w) l = Some vs ->
    exists ext l', mapM' cb l w = Some (l', set_objs (objs w ++ ext) w)
                   /\ values (objs w ++ ext) l' = Some (g <$> vs).
Proof.
  intros Hstable Hcb l. induction l as [|r l IH]; intros w vs HP Hv.
  - apply values_Forall2 in Hv. inversion Hv; subst.
    exists [], []. simpl. unfold ret. by rewrite app_nil_r, set_objs_same.
  - apply values_Forall2 in Hv. inversion Hv as [|? t ? vs' Hr Hl]; subst.
    apply values_Forall2 in Hl.
    destruct (Hcb w r t HP Hr) as (e1 & r' & Hrun1 & Hr').
    destruct (IH (set_objs (objs w ++ e1) w) vs' (Hstable _ _ HP)
                (values_app _ _ _ _ Hl)) as (e2 & l' & Hrun2 & Hl').
    simpl in Hrun2, Hl'. rewrite <- (assoc_L (++)) in Hrun2, Hl'.
    exists (e1 ++ e2), (r' :: l'). split.
    + simpl. run_with Hrun1. by run_with Hrun2.
    + rewrite fmap_cons. apply values_cons; [|done].
      rewrite (assoc_L (++)). by apply lookup_app_l_Some.
Qed.

Lemma array_map_copy (cb : ref -> M ref) (g : Todo -> Todo) (P : World -> Prop)
    w a vs :
  (forall w ext, P w -> P (set_objs (objs w ++ ext) w)) ->
  (forall w r t, P w -> objs w !! r = Some t ->
     exists ext r', cb r w = Some (r', set_objs (objs w ++ ext) w)
                    /\ (objs w ++ ext) !! r' = Some (g t)) ->
  P w -> deref w a = Some vs ->
  exists ext l',
    array_map cb a w
    = Some (length (arrs w),
            set_arrs (arrs w ++ [l']) (set_objs (objs w ++ ext) w))
    /\ values (objs w ++ ext) l' = Some (g <$> vs).
Proof.
  intros Hstable Hcb HP (l & Ha & Hl)%deref_Some.
  destruct (mapM'_copy cb g P Hstable Hcb l w vs HP Hl) as (ext & l' & Hrun & Hl').
  exists ext, l'. split; [|done]. unfold array_map.
  run_with (read_array_ok _ _ _ Ha). by run_with Hrun.
Qed.

Lemma toggled_toggled i t : toggled i (toggled i t) = t.
Proof.
  unfold toggled. destruct (decide (i = id t)) as [Hi|Hi]; simpl.
  - rewrite decide_True by done. simpl. rewrite negb_involutive. by destruct t.
  - by rewrite decide_False.
Qed.

Lemma toggleCheck_callback todo i w r t :
  (exists o, objs w !! todo = Some o /\ id o = i) ->
  objs w !! r = Some t ->
  exists ext r',
    (let! t := read_obj todo in
     let! i := read_obj r in
     if decide (id t = id i) then
       new_obj (mkTodo (id i) (title i) (negb (completed i)))
     else ret r) w
    = Some (r', set_objs (objs w ++ ext) w)
    /\ (objs w ++ ext) !! r' = Some (toggled i t).
Proof.
  intros (o & Ho & <-) Hr.
  unfold toggled. destruct (decide (id o = id t)) as [Hid|Hid].
  - exists [mkTodo (id t) (title t) (negb (completed t))], (length (objs w)).
    split; [|by apply list_lookup_middle].
    run_with (read_obj_ok _ _ _ Ho). run_with (read_obj_ok _ _ _ Hr).
    by rewrite decide_True.
  - exists [], r. rewrite app_nil_r, set_objs_same. split; [|done].
    run_with (read_obj_ok _ _ _ Ho). run_with (read_obj_ok _ _ _ Hr).
    by rewrite decide_False.
Qed.

Lemma toggleCheck_run todo o w all vis :
  objs w !! todo = Some o ->
  allTodos w = Some all -> visibleTodos w = Some vis ->
  exists w',
    toggleCheck todo w = Some (tt, w')
    /\ visibleTodos w' = Some (toggled (id o) <$> vis)
    /\ allTodos w' = Some all
    /\ localStorage w'
       = <[str "todos" :=
             route_selected (currentUrl w) all (toggled (id o) <$> vis)]>
           (localStorage w)
    /\ (forall r t, objs w !! r = Some t -> objs w' !! r = Some t)
    /\ todos w' = todos w
    /\ arrs w' !! todos w' = arrs w !! todos w
    /\ editMode w' = editMode w
    /\ todoSelectedToEdit w' = todoSelectedToEdit w
    /\ currentUrl w' = currentUrl w.
Proof.
  intros Ho Hall Hvis. unfold toggleCheck. run_simple.
  destruct (array_map_copy
              (fun item =>
                 let! t := read_obj todo in
                 let! i := read_obj item in
                 if decide (id t = id i) then
                   new_obj (mkTodo (id i) (title i) (negb (completed i)))
                 else ret item)
              (toggled (id o))
              (fun w => exists o', objs w !! todo = Some o' /\ id o' = id o)
              w (tempTodos w) vis)
    as (ext & l' & Hrun & Hl'); [| |by exists o|done|].
  { intros w0 e (o' & Ho' & Hid). exists o'. split; [|done].
    by apply lookup_app_l_Some. }
  { intros w0 r t HP Hr. by apply toggleCheck_callback. }
  run_with Hrun. run_simple.
  set (w2 := set_tempTodos _ _).
  assert (Hv2 : visibleTodos w2 = Some (toggled (id o) <$> vis)).
  { unfold visibleTodos. subst w2. simpl.
    by rewrite (deref_last _ (arrs w) l'). }
  assert (Ha2 : allTodos w2 = Some all)
    by (by apply (deref_grown w _ _ _ ext [l'])).
  destruct (deref_Some _ _ _ Hall) as (la & Hla & _).
  rewrite (saveTodos_ok _ _ _ Ha2 Hv2).
  eexists. split; [done|]. split; [done|]. split; [done|]. split; [done|].
  split; [intros r t Hr; simpl; by apply lookup_app_l_Some|].
  split; [done|]. split; [|done].
  simpl. rewrite Hla. by apply lookup_app_l_Some.
Qed.

(** C3.  [toggleCheck] leaves every entry of [visibleTodos] with another
    id as it is, field for field, and flips [completed] of an entry with
    the id of its argument, keeping [id] and [title].  Called a second
    time with an argument of the same id, it gives back the original
    [visibleTodos]: the flag is as it was at the start, and the other
    entries are again unchanged. *)
Theorem toggleCheck_twice_restores todo o w all vis :
  objs w !! todo = Some o ->
  allTodos w = Some all -> visibleTodos w = Some vis ->
  exists w1 vis1,
    toggleCheck todo w = Some (tt, w1)
    /\ visibleTodos w1 = Some vis1
    /\ length vis1 = length vis
    /\ (forall i e, vis !! i = Some e -> id e <> id o -> vis1 !! i = Some e)
    /\ (forall i e, vis !! i = Some e -> id e = id o ->
          vis1 !! i = Some (mkTodo (id e) (title e) (negb (completed e))))
    /\ (forall r t, objs w !! r = Some t -> objs w1 !! r = Some t)
    /\ (forall todo' o',
          objs w1 !! todo' = Some o' -> id o' = id o ->
          exists w2,
            toggleCheck todo' w1 = Some (tt, w2)
            /\ visibleTodos w2 = Some vis).
Proof.
  intros Ho Hall Hvis.
  destruct (toggleCheck_run todo o w all vis Ho Hall Hvis)
    as (w1 & Hrun1 & Hv1 & Ha1 & _ & Hobjs & _).
  exists w1, (toggled (id o) <$> vis).
  split; [done|]. split; [done|]. split; [by rewrite length_fmap|].
  split; [|split; [|split; [exact Hobjs|]]].
  - intros i e Hi Hne. rewrite list_lookup_fmap, Hi. simpl.
    unfold toggled. by rewrite decide_False.
  - intros i e Hi He. rewrite list_lookup_fmap, Hi. simpl.
    unfold toggled. by rewrite decide_True.
  - intros todo' o' Ho' Hid.
    destruct (toggleCheck_run todo' o' w1 all _ Ho' Ha1 Hv1)
      as (w2 & Hrun2 & Hv2 & _).
    exists w2. split; [done|]. rewrite Hv2, Hid. f_equal.
    rewrite <- list_fmap_compose.
    rewrite <- (list_fmap_id vis) at 2. apply list_fmap_ext.
    intros ? t _. by apply toggled_toggled.
Qed.

(** *** [deleteTodo] *)

Lemma deleteTodo_callback target o w r t :
  objs w !! target = Some o ->
  objs w !! r = Some t ->
  (let! i := read_obj r in
   let! t := read_obj target in
   ret (negb (bool_decide (id i = id t)))) w
  = Some (negb (bool_decide (id t = id o)), w).
Proof.
  intros Ho Hr. run_with (read_obj_ok _ _ _ Hr). by run_with (read_obj_ok _ _ _ Ho).
Qed.

Lemma filter_other_id i (l : list Todo) :
  filter (fun t => negb (bool_decide (id t = i)) = true) l
  = filter (fun t => id t <> i) l.
Proof.
  apply list_filter_iff. intros t.
  rewrite negb_true_iff. apply bool_decide_eq_false.
Qed.

Lemma filter_all {A} (P : A -> Prop) `{!forall x, Decision (P x)} (l : list A) :
  (forall x, x ∈ l -> P x) -> filter P l = l.
Proof.
  induction l as [|x l IH]; intros HP; [done|].
  rewrite filter_cons, decide_True by (apply HP; by left).
  f_equal. apply IH. intros y Hy. apply HP. by right.
Qed.

Lemma deleteTodo_run target o w vis :
  objs w !! target = Some o ->
  visibleTodos w = Some vis ->
  exists w',
    deleteTodo target w = Some (tt, w')
    /\ visibleTodos w' = Some (filter (fun t => id t <> id o) vis)
    /\ allTodos w' = Some (filter (fun t => id t <> id o) vis)
    /\ localStorage w'
       = <[str "todos" := filter (fun t => id t <> id o) vis]> (localStorage w)
    /\ todos w' = tempTodos w'
    /\ editMode w' = editMode w
    /\ todoSelectedToEdit w' = todoSelectedToEdit w
    /\ currentUrl w' = currentUrl w.
Proof.
  intros Ho Hvis. unfold deleteTodo. run_simple.
  destruct (array_filter_ok
              (fun item =>
                 let! i := read_obj item in
                 let! t := read_obj target in
                 ret (negb (bool_decide (id i = id t))))
              (fun t => negb (bool_decide (id t = id o)))
              w (tempTodos w) vis)
    as (l' & Hrun & Hl'); [intros; by apply deleteTodo_callback | done |].
  rewrite filter_other_id in Hl'.
  run_with Hrun. run_simple.
  set (w3 := set_todos _ _).
  assert (Hv3 : visibleTodos w3 = Some (filter (fun t => id t <> id o) vis)).
  { unfold visibleTodos. subst w3. simpl.
    by rewrite (deref_last _ (arrs w) l'). }
  assert (Ha3 : allTodos w3 = Some (filter (fun t => id t <> id o) vis))
    by exact Hv3.
  rewrite (saveTodos_ok _ _ _ Ha3 Hv3).
  eexists. split; [done|]. split; [done|]. split; [done|].
  split; [|done]. simpl. unfold route_selected. by destruct (decide _).
Qed.

(** C2, amended.  [deleteTodo] with an argument whose id no entry of
    [visibleTodos] has returns without a fault and leaves [visibleTodos],
    [editMode] and the selected todo as they were.  It still assigns
    [tempTodos] to [todos] and saves: [allTodos] and the stored value
    become [visibleTodos], so they stay as they were exactly when they
    were equal to [visibleTodos] before. *)
Theorem deleteTodo_absent_id target o w vis :
  objs w !! target = Some o ->
  visibleTodos w = Some vis ->
  (forall t, t ∈ vis -> id t <> id o) ->
  exists w',
    deleteTodo target w = Some (tt, w')
    /\ visibleTodos w' = Some vis
    /\ editMode w' = editMode w
    /\ todoSelectedToEdit w' = todoSelectedToEdit w
    /\ currentUrl w' = currentUrl w
    /\ allTodos w' = Some vis
    /\ stored w' = Some vis
    /\ (allTodos w' = allTodos w <-> allTodos w = Some vis)
    /\ (stored w' = stored w <-> stored w = Some vis).
Proof.
  intros Ho Hvis Habs.
  destruct (deleteTodo_run target o w vis Ho Hvis)
    as (w' & Hrun & Hv & Ha & Hs & _ & He & Hsel & Hu).
  rewrite (filter_all _ vis Habs) in Hv, Ha, Hs.
  assert (Hst : stored w' = Some vis)
    by (unfold stored; by rewrite Hs, lookup_insert_eq).
  exists w'. rewrite Ha, Hst. repeat split; try done; congruence.
Qed.

(** *** Initialisation and the round trip through the store *)

Lemma filterTodos_run w all :
  allTodos w = Some all ->
  exists w',
    filterTodos w = Some (tt, w')
    /\ visibleTodos w' = Some (route_filter (currentUrl w) all)
    /\ allTodos w' = Some all
    /\ localStorage w' = localStorage w
    /\ currentUrl w' = currentUrl w
    /\ editMode w' = editMode w
    /\ todoSelectedToEdit w' = todoSelectedToEdit w.
Proof.
  intros Hall. unfold filterTodos, route_filter. run_simple.
  destruct (decide (currentUrl w = str "/completed")) as [Hc|Hc];
    [|destruct (decide (currentUrl w = str "/pending")) as [Hp|Hp]];
    run_simple.
  - destruct (array_filter_ok
                (fun r => let! t := read_obj r in ret (completed t))
                (fun t => completed t) w (todos w) all)
      as (l' & Hrun & Hl');
      [intros; by apply (read_field_pure (fun t => completed t)) | done |].
    run_with Hrun. eexists. split; [done|].
    split; [unfold visibleTodos; simpl; by rewrite (deref_last _ (arrs w) l')|].
    split; [|done].
    by apply (deref_grown w _ _ _ [] [l']); [simpl; by rewrite app_nil_r|..].
  - destruct (array_filter_ok
                (fun r => let! t := read_obj r in ret (negb (completed t)))
                (fun t => negb (completed t)) w (todos w) all)
      as (l' & Hrun & Hl');
      [intros; by apply (read_field_pure (fun t => negb (completed t))) | done |].
    rewrite filter_negb_completed in Hl'.
    run_with Hrun. eexists. split; [done|].
    split; [unfold visibleTodos; simpl; by rewrite (deref_last _ (arrs w) l')|].
    split; [|done].
    by apply (deref_grown w _ _ _ [] [l']); [simpl; by rewrite app_nil_r|..].
  - eexists. split; [done|]. done.
Qed.

Lemma mapM'_new_obj v w :
  mapM' new_obj v w
  = Some (seq (length (objs w)) (length v), set_objs (objs w ++ v) w).
Proof.
  revert w. induction v as [|t v IH]; intros w; simpl.
  - unfold ret. by rewrite app_nil_r, set_objs_same.
  - run_simple. run_with (IH (set_objs (objs w ++ [t]) w)). unfold ret. simpl.
    rewrite length_app. simpl. rewrite <- (assoc_L (++)). simpl.
    by replace (length (objs w) + 1) with (S (length (objs w))) by lia.
Qed.

Lemma getItem_Some k v w :
  localStorage w !! k = Some v ->
  getItem k w
  = Some (Some (length (arrs w)),
          set_arrs (arrs w ++ [seq (length (objs w)) (length v)])
                   (set_objs (objs w ++ v) w)).
Proof.
  intros H. unfold getItem. run_simple. rewrite H.
  run_with (mapM'_new_obj v w). by run_simple.
Qed.

Lemma getItem_None k w :
  localStorage w !! k = None -> getItem k w = Some (None, w).
Proof. intros H. unfold getItem. run_simple. by rewrite H. Qed.

Lemma ngOnInit_run w v :
  stored w = Some v ->
  exists w',
    ngOnInit w = Some (tt, w')
    /\ currentUrl w' = router_url w
    /\ allTodos w' = Some v
    /\ visibleTodos w' = Some (route_filter (router_url w) v)
    /\ localStorage w' = localStorage w
    /\ editMode w' = editMode w.
Proof.
  intros Hs. unfold ngOnInit. run_simple.
  set (w1 := set_currentUrl _ w).
  run_with (getItem_Some (str "todos") v w1 Hs).
  set (w2 := set_arrs _ _).
  run_with (getItem_Some (str "todos") v w2 Hs). run_simple.
  set (w4 := set_todos _ _).
  assert (Ha4 : allTodos w4 = Some v).
  { unfold allTodos. subst w4. simpl.
    rewrite (deref_last _ (arrs w2) (seq (length (objs w2)) (length v))) by done.
    apply values_seq. }
  destruct (filterTodos_run w4 v Ha4) as (w' & Hrun & Hv & Ha & Hst & Hu & He & _).
  exists w'. rewrite Hrun. split; [done|]. by rewrite Hu, Hst, He.
Qed.

Lemma ngOnInit_empty w :
  stored w = None -> ngOnInit w = Some (tt, set_currentUrl (router_url w) w).
Proof.
  intros Hs. unfold ngOnInit. run_simple.
  by run_with (getItem_None (str "todos") (set_currentUrl (router_url w) w) Hs).
Qed.

Lemma route_filter_selected url all :
  route_filter url (route_selected url all (route_filter url all))
  = route_filter url all.
Proof.
  unfold route_filter, route_selected.
  destruct (decide (url = str "/completed")); [done|].
  destruct (decide (url = str "/pending")); [|done].
  rewrite list_filter_filter. apply list_filter_iff. intros t. tauto.
Qed.

(** C6.  Round trip: in a state whose [visibleTodos] is the route filter
    of [allTodos], [saveTodos] returns, and a new component built on the
    store it leaves and on the same route is initialised by [ngOnInit]
    to an equal [visibleTodos]. *)
Theorem saveTodos_ngOnInit_round_trip w all vis :
  allTodos w = Some all ->
  visibleTodos w = Some vis ->
  vis = route_filter (currentUrl w) all ->
  exists w1 w2,
    saveTodos w = Some (tt, w1)
    /\ ngOnInit (construct (currentUrl w) (localStorage w1)) = Some (tt, w2)
    /\ currentUrl w2 = currentUrl w
    /\ visibleTodos w2 = Some vis.
Proof.
  intros Hall Hvis ->.
  eexists.
  destruct (ngOnInit_run
              (construct (currentUrl w)
                 (<[str "todos" :=
                      route_selected (currentUrl w) all
                        (route_filter (currentUrl w) all)]> (localStorage w)))
              (route_selected (currentUrl w) all (route_filter (currentUrl w) all)))
    as (w2 & Hrun & Hu & _ & Hv & _); [by apply lookup_insert_eq|].
  exists w2. split; [by apply saveTodos_ok|]. split; [exact Hrun|].
  split; [done|]. simpl in Hv. by rewrite route_filter_selected in Hv.
Qed.

(** C9, amended.  On the route [/completed], [toggleCheck] changes
    [visibleTodos] alone: [allTodos], the field [todos], the array it
    refers to and every object that existed are as before.  [saveTodos]
    then writes [allTodos], so the stored value is [allTodos] after the
    call: it is the value stored before whenever the store held
    [allTodos] already.  A component initialised from that store sees
    [allTodos] and its completed entries, not the toggle. *)
Theorem toggleCheck_completed_route_not_saved todo o w all vis :
  currentUrl w = str "/completed" ->
  objs w !! todo = Some o ->
  allTodos w = Some all -> visibleTodos w = Some vis ->
  exists w' w'',
    toggleCheck todo w = Some (tt, w')
    /\ visibleTodos w' = Some (toggled (id o) <$> vis)
    /\ allTodos w' = Some all
    /\ todos w' = todos w
    /\ arrs w' !! todos w' = arrs w !! todos w
    /\ (forall r t, objs w !! r = Some t -> objs w' !! r = Some t)
    /\ editMode w' = editMode w
    /\ todoSelectedToEdit w' = todoSelectedToEdit w
    /\ stored w' = Some all
    /\ (stored w = Some all -> localStorage w' = localStorage w)
    /\ ngOnInit (construct (str "/completed") (localStorage w')) = Some (tt, w'')
    /\ allTodos w'' = Some all
    /\ visibleTodos w'' = Some (filter (fun t => completed t = true) all).
Proof.
  intros Hu Ho Hall Hvis.
  destruct (toggleCheck_run todo o w all vis Ho Hall Hvis)
    as (w' & Hrun & Hv & Ha & Hs & Hobjs & Ht & Harr & He & Hsel & _).
  unfold route_selected in Hs. rewrite decide_True in Hs by done.
  assert (Hst : stored w' = Some all)
    by (unfold stored; by rewrite Hs, lookup_insert_eq).
  destruct (ngOnInit_run (construct (str "/completed") (localStorage w')) all Hst)
    as (w'' & Hinit & _ & Ha'' & Hv'' & _).
  exists w', w''. repeat (split; [done|]).
  split; [intros Hold; rewrite Hs; by apply insert_id|].
  repeat (split; [done|]). exact Hv''.
Qed.

(** ** Counterexamples to the claims as they were stated *)

Ltac evaluate :=
  repeat match goal with |- _ /\ _ => split end;
  vm_compute; first [reflexivity | discriminate].

(** C2 as stated fails.  On the route [/pending] the store holds a
    pending and a completed todo; after [ngOnInit] the completed one,
    object 3, is in [allTodos] and not in [visibleTodos].  [deleteTodo]
    of it removes nothing from [visibleTodos], and [allTodos] and the
    stored value both lose the completed todo. *)
Lemma deleteTodo_absent_id_changes_allTodos :
  exists w w',
    ngOnInit (construct (str "/pending")
                {[ str "todos" := [mkTodo 1 (str "a") false;
                                   mkTodo 2 (str "b") true] ]})
    = Some (tt, w)
    /\ objs w !! 3 = Some (mkTodo 2 (str "b") true)
    /\ visibleTodos w = Some [mkTodo 1 (str "a") false]
    /\ allTodos w = Some [mkTodo 1 (str "a") false; mkTodo 2 (str "b") true]
    /\ stored w = Some [mkTodo 1 (str "a") false; mkTodo 2 (str "b") true]
    /\ deleteTodo 3 w = Some (tt, w')
    /\ visibleTodos w' = Some [mkTodo 1 (str "a") false]
    /\ allTodos w' = Some [mkTodo 1 (str "a") false]
    /\ stored w' = Some [mkTodo 1 (str "a") false]
    /\ allTodos w' <> allTodos w
    /\ stored w' <> stored w.
Proof.
  set (w := exec ngOnInit
              (construct (str "/pending")
                 {[ str "todos" := [mkTodo 1 (str "a") false;
                                    mkTodo 2 (str "b") true] ]})).
  exists w, (exec (deleteTodo 3) w). subst w.
  evaluate.
Qed.

(** C9 as stated fails.  On the route [/completed] the entry shown is
    selected and its title edited, the edit ended by Escape: the title of
    the object has changed, the store has not.  [toggleCheck] of that
    entry then saves [allTodos], and the stored value changes: its title
    is now the edited one. *)
Lemma toggleCheck_completed_route_changes_store :
  exists w0 w1 w2 w3,
    ngOnInit (construct (str "/completed")
                {[ str "todos" := [mkTodo 1 (str "a") true] ]})
    = Some (tt, w0)
    /\ arrs w0 !! tempTodos w0 = Some [1]
    /\ selectTodoToEdit 1 w0 = Some (tt, w1)
    /\ editTodo (Escape (str "z")) w1 = Some (tt, w2)
    /\ currentUrl w2 = str "/completed"
    /\ stored w2 = Some [mkTodo 1 (str "a") true]
    /\ toggleCheck 1 w2 = Some (tt, w3)
    /\ stored w3 = Some [mkTodo 1 (str "z") true]
    /\ stored w3 <> stored w2.
Proof.
  set (w0 := exec ngOnInit
               (construct (str "/completed")
                  {[ str "todos" := [mkTodo 1 (str "a") true] ]})).
  set (w1 := exec (selectTodoToEdit 1) w0).
  set (w2 := exec (editTodo (Escape (str "z"))) w1).
  exists w0, w1, w2, (exec (toggleCheck 1) w2). subst w0 w1 w2.
  evaluate.
Qed.

(** C10 as stated fails.  On the route [/completed], with nothing
    stored, a blank text entered by Enter puts the empty-titled todo in
    front of [visibleTodos], and the list that [saveTodos] writes is
    [allTodos], which does not have it: the todo is not stored. *)
Lemma addNewTodo_empty_title_not_stored :
  exists w w',
    ngOnInit (construct (str "/completed") ∅) = Some (tt, w)
    /\ trim (str "  ") = []
    /\ addNewTodo 7 (Enter (str "  ")) w = Some ([], w')
    /\ visibleTodos w' = Some [mkTodo 7 [] false]
    /\ stored w' = Some [].
Proof.
  set (w := exec ngOnInit (construct (str "/completed") ∅)).
  exists w, (exec (addNewTodo 7 (Enter (str "  "))) w). subst w.
  evaluate.
Qed.

(** ** The claims at concrete states *)

Ltac by_evaluation := vm_compute; reflexivity.

Lemma editTodo_Escape_keeps_title_witness :
  todoSelectedToEdit world_editing = Some 1
  /\ arrs world_editing !! tempTodos world_editing = Some [1]
  /\ visibleTodos world_editing = Some [todo_a false]
  /\ exists w' vis' new,
       editTodo (Escape (str "z")) world_editing = Some (tt, w')
       /\ editMode w' = false
       /\ localStorage w' = localStorage world_editing
       /\ visibleTodos w' = Some vis'
       /\ vis' !! 0 = Some new
       /\ title new = str "z".
Proof.
  assert (H1 : todoSelectedToEdit world_editing = Some 1) by by_evaluation.
  assert (H2 : arrs world_editing !! tempTodos world_editing = Some [1])
    by by_evaluation.
  assert (H3 : visibleTodos world_editing = Some [todo_a false]) by by_evaluation.
  split; [exact H1|]. split; [exact H2|]. split; [exact H3|].
  destruct (editTodo_Escape_keeps_title (str "z") world_editing 1 [1] 0
              [todo_a false] H1 H2 H3 eq_refl)
    as (w' & vis' & old & new & Hrun & He & Hs & Hv & _ & Hnew & Ht & _).
  exists w', vis', new. repeat (split; [assumption|]). exact Ht.
Defined.

Lemma deleteTodo_absent_id_witness :
  objs world_pending !! 3 = Some (todo_b true)
  /\ visibleTodos world_pending = Some [todo_a false]
  /\ (forall t, t ∈ [todo_a false] -> id t <> id (todo_b true))
  /\ exists w',
       deleteTodo 3 world_pending = Some (tt, w')
       /\ visibleTodos w' = Some [todo_a false]
       /\ allTodos w' = Some [todo_a false]
       /\ stored w' = Some [todo_a false].
Proof.
  assert (H1 : objs world_pending !! 3 = Some (todo_b true)) by by_evaluation.
  assert (H2 : visibleTodos world_pending = Some [todo_a false]) by by_evaluation.
  assert (H3 : forall t, t ∈ [todo_a false] -> id t <> id (todo_b true))
    by (intros t ->%list_elem_of_singleton; discriminate).
  split; [exact H1|]. split; [exact H2|]. split; [exact H3|].
  destruct (deleteTodo_absent_id 3 (todo_b true) world_pending [todo_a false]
              H1 H2 H3)
    as (w' & Hrun & Hv & _ & _ & _ & Ha & Hs & _).
  exists w'. repeat (split; [assumption|]). exact Hs.
Defined.

Lemma toggleCheck_twice_restores_witness :
  objs world_all !! 2 = Some (todo_a true)
  /\ allTodos world_all = Some [todo_a true; todo_b false]
  /\ visibleTodos world_all = Some [todo_a true; todo_b false]
  /\ exists w1 vis1 w2,
       toggleCheck 2 world_all = Some (tt, w1)
       /\ visibleTodos w1 = Some vis1
       /\ vis1 !! 0 = Some (todo_a false)
       /\ vis1 !! 1 = Some (todo_b false)
       /\ toggleCheck 2 w1 = Some (tt, w2)
       /\ visibleTodos w2 = Some [todo_a true; todo_b false].
Proof.
  assert (H1 : objs world_all !! 2 = Some (todo_a true)) by by_evaluation.
  assert (H2 : allTodos world_all = Some [todo_a true; todo_b false])
    by by_evaluation.
  assert (H3 : visibleTodos world_all = Some [todo_a true; todo_b false])
    by by_evaluation.
  split; [exact H1|]. split; [exact H2|]. split; [exact H3|].
  destruct (toggleCheck_twice_restores 2 (todo_a true) world_all _ _ H1 H2 H3)
    as (w1 & vis1 & Hrun1 & Hv1 & _ & Hother & Hsame & Hobjs & Hagain).
  destruct (Hagain 2 (todo_a true) (Hobjs _ _ H1) eq_refl) as (w2 & Hrun2 & Hv2).
  exists w1, vis1, w2. split; [exact Hrun1|]. split; [exact Hv1|].
  split; [exact (Hsame 0 (todo_a true) eq_refl eq_refl)|].
  split; [apply (Hother 1 (todo_b false) eq_refl); discriminate|].
  split; [exact Hrun2|exact Hv2].
Defined.

Lemma addNewTodo_Enter_prepends_witness :
  allTodos world_empty = Some []
  /\ visibleTodos world_empty = Some []
  /\ exists w2 vis2 new,
       addNewTodo 5 (Enter (str "buy milk")) world_empty = Some ([], w2)
       /\ visibleTodos w2 = Some vis2
       /\ length vis2 = 1
       /\ vis2 !! 0 = Some new
       /\ title new = str "buy milk"
       /\ completed new = false.
Proof.
  assert (H1 : allTodos world_empty = Some []) by by_evaluation.
  assert (H2 : visibleTodos world_empty = Some []) by by_evaluation.
  split; [exact H1|]. split; [exact H2|].
  destruct (addNewTodo_Enter_prepends [] 5 (str "buy milk") world_empty [] []
              H1 H2)
    as (w1 & vis1 & w2 & vis2 & new & Hrun1 & Hv1 & Hrun2 & Hv2 & Hlen & H0
        & Ht & Hc & _).
  injection Hrun1 as <-. rewrite H2 in Hv1. injection Hv1 as <-.
  exists w2, vis2, new. repeat (split; [assumption|]). exact Hc.
Defined.

Lemma clearCompleted_removes_completed_witness :
  allTodos world_all = Some [todo_a true; todo_b false]
  /\ visibleTodos world_all = Some [todo_a true; todo_b false]
  /\ exists w',
       clearCompleted world_all = Some (tt, w')
       /\ allTodos w' = Some [todo_b false]
       /\ visibleTodos w' = Some [todo_b false].
Proof.
  assert (H1 : allTodos world_all = Some [todo_a true; todo_b false])
    by by_evaluation.
  assert (H2 : visibleTodos world_all = Some [todo_a true; todo_b false])
    by by_evaluation.
  split; [exact H1|]. split; [exact H2|].
  destruct (clearCompleted_removes_completed world_all _ _ H1 H2)
    as (w' & Hrun & _ & Hother & _).
  assert (Hu : currentUrl world_all <> str "/completed")
    by (vm_compute; discriminate).
  destruct (Hother Hu) as [Ha Hv].
  exists w'. split; [exact Hrun|]. split; [exact Ha|exact Hv].
Defined.

Lemma saveTodos_ngOnInit_round_trip_witness :
  allTodos world_pending = Some [todo_a false; todo_b true]
  /\ visibleTodos world_pending = Some [todo_a false]
  /\ [todo_a false]
     = route_filter (currentUrl world_pending) [todo_a false; todo_b true]
  /\ exists w1 w2,
       saveTodos world_pending = Some (tt, w1)
       /\ ngOnInit (construct (currentUrl world_pending) (localStorage w1))
          = Some (tt, w2)
       /\ visibleTodos w2 = Some [todo_a false].
Proof.
  assert (H1 : allTodos world_pending = Some [todo_a false; todo_b true])
    by by_evaluation.
  assert (H2 : visibleTodos world_pending = Some [todo_a false])
    by by_evaluation.
  assert (H3 : [todo_a false]
               = route_filter (currentUrl world_pending)
                   [todo_a false; todo_b true]) by by_evaluation.
  split; [exact H1|]. split; [exact H2|]. split; [exact H3|].
  destruct (saveTodos_ngOnInit_round_trip world_pending _ _ H1 H2 H3)
    as (w1 & w2 & Hsave & Hinit & _ & Hv).
  exists w1, w2. split; [exact Hsave|]. split; [exact Hinit|exact Hv].
Defined.

Lemma pendingTodos_counts_allTodos_witness :
  allTodos world_pending = Some [todo_a false; todo_b true]
  /\ visibleTodos world_pending = Some [todo_a false]
  /\ exists w',
       pendingTodos world_pending = Some (1, w')
       /\ allTodos w' = Some [todo_a false; todo_b true]
       /\ visibleTodos w' = Some [todo_a false]
       /\ localStorage w' = localStorage world_pending.
Proof.
  assert (H1 : allTodos world_pending = Some [todo_a false; todo_b true])
    by by_evaluation.
  assert (H2 : visibleTodos world_pending = Some [todo_a false])
    by by_evaluation.
  split; [exact H1|]. split; [exact H2|].
  destruct (pendingTodos_counts_allTodos world_pending _ _ H1 H2)
    as (w' & Hrun & Ha & Hv & _ & _ & _ & _ & _ & _ & Hs).
  exists w'. split; [exact Hrun|]. split; [exact Ha|]. split; [exact Hv|exact Hs].
Defined.

Lemma addNewTodo_other_key_only_saves_witness :
  str "a" <> str "Enter"
  /\ allTodos world_pending = Some [todo_a false; todo_b true]
  /\ visibleTodos world_pending = Some [todo_a false]
  /\ exists w',
       addNewTodo 5 (mkKeyboardEvent (str "a") (str "to")) world_pending
       = Some (str "to", w')
       /\ visibleTodos w' = Some [todo_a false]
       /\ allTodos w' = Some [todo_a false; todo_b true]
       /\ stored w' = Some [todo_a false].
Proof.
  assert (H0 : str "a" <> str "Enter") by (vm_compute; discriminate).
  assert (H1 : allTodos world_pending = Some [todo_a false; todo_b true])
    by by_evaluation.
  assert (H2 : visibleTodos world_pending = Some [todo_a false])
    by by_evaluation.
  split; [exact H0|]. split; [exact H1|]. split; [exact H2|].
  destruct (addNewTodo_other_key_only_saves 5 (str "a") (str "to")
              world_pending _ _ H0 H1 H2)
    as (w' & Hrun & Hv & Ha & _ & _ & _ & Hs).
  exists w'. split; [exact Hrun|]. split; [exact Hv|]. split; [exact Ha|].
  unfold stored. rewrite Hs. apply lookup_insert_eq.
Defined.

Lemma toggleCheck_completed_route_not_saved_witness :
  currentUrl world_completed = str "/completed"
  /\ objs world_completed !! 1 = Some (todo_a true)
  /\ allTodos world_completed = Some [todo_a true]
  /\ visibleTodos world_completed = Some [todo_a true]
  /\ exists w' w'',
       toggleCheck 1 world_completed = Some (tt, w')
       /\ visibleTodos w' = Some [todo_a false]
       /\ allTodos w' = Some [todo_a true]
       /\ localStorage w' = localStorage world_completed
       /\ ngOnInit (construct (str "/completed") (localStorage w'))
          = Some (tt, w'')
       /\ visibleTodos w'' = Some [todo_a true].
Proof.
  assert (H0 : currentUrl world_completed = str "/completed") by by_evaluation.
  assert (H1 : objs world_completed !! 1 = Some (todo_a true)) by by_evaluation.
  assert (H2 : allTodos world_completed = Some [todo_a true]) by by_evaluation.
  assert (H3 : visibleTodos world_completed = Some [todo_a true])
    by by_evaluation.
  assert (H4 : stored world_completed = Some [todo_a true]) by by_evaluation.
  split; [exact H0|]. split; [exact H1|]. split; [exact H2|]. split; [exact H3|].
  destruct (toggleCheck_completed_route_not_saved 1 (todo_a true)
              world_completed _ _ H0 H1 H2 H3)
    as (w' & w'' & Hrun & Hv & Ha & _ & _ & _ & _ & _ & _ & Hs & Hinit & _ & Hv'').
  exists w', w''. split; [exact Hrun|]. split; [exact Hv|]. split; [exact Ha|].
  split; [exact (Hs H4)|]. split; [exact Hinit|exact Hv''].
Defined.

Lemma addNewTodo_accepts_empty_title_witness :
  trim (str "  ") = []
  /\ allTodos world_empty = Some []
  /\ visibleTodos world_empty = Some []
  /\ exists w',
       addNewTodo 7 (Enter (str "  ")) world_empty = Some ([], w')
       /\ visibleTodos w' = Some [mkTodo 7 [] false]
       /\ stored w' = Some [mkTodo 7 [] false].
Proof.
  assert (H0 : trim (str "  ") = []) by by_evaluation.
  assert (H1 : allTodos world_empty = Some []) by by_evaluation.
  assert (H2 : visibleTodos world_empty = Some []) by by_evaluation.
  split; [exact H0|]. split; [exact H1|]. split; [exact H2|].
  destruct (addNewTodo_accepts_empty_title 7 (str "  ") world_empty [] []
              H0 H1 H2)
    as (w' & Hrun & Hv & Hother & _).
  assert (Hu : currentUrl world_empty <> str "/completed")
    by (vm_compute; discriminate).
  exists w'. split; [exact Hrun|]. split; [exact Hv|exact (Hother Hu)].
Defined.

(** ** Further properties of the component *)

(** *** [editTodo], every key *)

Lemma deref_edited w r old e a l vs :
  objs w !! r = Some old ->
  arrs w !! a = Some l ->
  values (objs w) l = Some vs ->
  deref (set_objs (<[r := e]> (objs w)) w) a = Some (edited r e l vs).
Proof.
  intros Hr Ha Hv. unfold deref. simpl. rewrite Ha. simpl.
  apply values_insert; [by eapply lookup_lt_Some | done].
Qed.

(** An entry that is the selected object read as [old] before, so
    replacing by id after the assignment is replacing by id before it. *)
Lemma replaced_edited o r old e l vs :
  o !! r = Some old -> id e = id old ->
  values o l = Some vs ->
  replaced e <$> edited r e l vs = replaced e <$> vs.
Proof.
  intros Hr Hid. rewrite values_Forall2. unfold edited.
  induction 1 as [|r' t l vs Hr' _ IH]; csimpl; [done|].
  rewrite IH. f_equal. destruct (decide (r' = r)) as [->|]; [|done].
  assert (t = old) as -> by congruence.
  unfold replaced. by rewrite !decide_True.
Qed.

Lemma editTodo_callback s e w r t :
  objs w !! s = Some e ->
  objs w !! r = Some t ->
  exists ext r',
    (let! e := read_obj s in
     let! i := read_obj r in
     if decide (id e = id i) then
       new_obj (mkTodo (id e) (title e) (completed e))
     else ret r) w
    = Some (r', set_objs (objs w ++ ext) w)
    /\ (objs w ++ ext) !! r' = Some (replaced e t).
Proof.
  intros Hs Hr. unfold replaced. destruct (decide (id e = id t)) as [Hid|Hid].
  - exists [mkTodo (id e) (title e) (completed e)], (length (objs w)).
    split; [|rewrite list_lookup_middle by done; by destruct e].
    run_with (read_obj_ok _ _ _ Hs). run_with (read_obj_ok _ _ _ Hr).
    by rewrite decide_True.
  - exists [], r. rewrite app_nil_r, set_objs_same. split; [|done].
    run_with (read_obj_ok _ _ _ Hs). run_with (read_obj_ok _ _ _ Hr).
    by rewrite decide_False.
Qed.

(** What [editTodo] leaves, for each of its three branches. *)
Lemma editTodo_run ev w r old la lv all vis :
  todoSelectedToEdit w = Some r ->
  objs w !! r = Some old ->
  arrs w !! todos w = Some la -> values (objs w) la = Some all ->
  arrs w !! tempTodos w = Some lv -> values (objs w) lv = Some vis ->
  exists w',
    editTodo ev w = Some (tt, w')
    /\ allTodos w' = Some (edited r (retitled old (trim (value ev))) la all)
    /\ visibleTodos w'
       = Some (if decide (key ev = str "Escape")
               then edited r (retitled old (trim (value ev))) lv vis
               else if decide (key ev = str "Enter")
               then replaced (retitled old (trim (value ev))) <$> vis
               else edited r (retitled old (trim (value ev))) lv vis)
    /\ editMode w'
       = (if decide (key ev = str "Escape") then false
          else if decide (key ev = str "Enter") then false else editMode w)
    /\ (if decide (key ev = str "Escape")
        then localStorage w' = localStorage w
        else exists v, visibleTodos w' = Some v
             /\ localStorage w'
                = <[str "todos" :=
                      route_selected (currentUrl w)
                        (edited r (retitled old (trim (value ev))) la all) v]>
                    (localStorage w))
    /\ todoSelectedToEdit w' = Some r
    /\ currentUrl w' = currentUrl w
    /\ objs w' !! r = Some (retitled old (trim (value ev))).
Proof.
  intros Hsel Hr Hla Hall Hlv Hvis.
  set (e := retitled old (trim (value ev))).
  unfold editTodo. run_simple. rewrite Hsel.
  run_with (read_obj_ok _ _ _ Hr). run_with (write_obj_ok _ _ _ e Hr).
  set (w1 := set_objs _ w).
  assert (Ha1 : allTodos w1 = Some (edited r e la all))
    by (by apply deref_edited with old).
  assert (Hv1 : visibleTodos w1 = Some (edited r e lv vis))
    by (by apply deref_edited with old).
  assert (Hr1 : objs w1 !! r = Some e)
    by (subst w1; simpl; apply list_lookup_insert_eq; by eapply lookup_lt_Some).
  destruct (decide (key ev = str "Escape")) as [He|He].
  { eexists. split; [done|]. by repeat split. }
  destruct (decide (key ev = str "Enter")) as [Hk|Hk].
  - run_simple.
    destruct (array_map_copy
                (fun Todo =>
                   let! e := read_obj r in
                   let! i := read_obj Todo in
                   if decide (id e = id i) then
                     new_obj (mkTodo (id e) (title e) (completed e))
                   else ret Todo)
                (replaced e)
                (fun w => objs w !! r = Some e)
                w1 (tempTodos w1) (edited r e lv vis))
      as (ext & l' & Hrun & Hl'); [| |done|done|].
    { intros w0 x H0. by apply lookup_app_l_Some. }
    { intros w0 r0 t H0 Hr0. by apply editTodo_callback. }
    rewrite (replaced_edited (objs w) r old e lv vis Hr eq_refl Hvis) in Hl'.
    run_with Hrun. run_simple.
    set (w3 := set_editMode _ _).
    assert (Hv3 : visibleTodos w3 = Some (replaced e <$> vis)).
    { unfold visibleTodos. subst w3. simpl.
      by rewrite (deref_last _ (arrs w1) l'). }
    assert (Ha3 : allTodos w3 = Some (edited r e la all))
      by (by apply (deref_grown w1 _ _ _ ext [l'])).
    rewrite (saveTodos_ok _ _ _ Ha3 Hv3).
    eexists. split; [done|]. split; [done|]. split; [done|]. split; [done|].
    split; [by eexists|]. split; [done|]. split; [done|].
    simpl. by apply lookup_app_l_Some.
  - run_simple. rewrite (saveTodos_ok _ _ _ Ha1 Hv1).
    eexists. split; [done|]. split; [done|]. split; [done|]. split; [done|].
    split; [by eexists|]. done.
Qed.

(** *** What the methods leave alone

    A relation between the world before and the world after that is
    reflexive and transitive and that the assignments of a method
    respect is kept by the method. *)

Section keeps.
Context (R : relation World) `{!PreOrder R}.

Lemma keeps_ret {A} (a : A) : keeps R (ret a).
Proof. intros w a' w' [= <- <-]. reflexivity. Qed.

Lemma keeps_fault {A} : keeps R (@fault A).
Proof. intros w a w' [=]. Qed.

Lemma keeps_gets {A} (f : World -> A) : keeps R (gets f).
Proof. intros w a w' [= <- <-]. reflexivity. Qed.

Lemma keeps_lift {A} (o : World -> option A) : keeps R (lift o).
Proof.
  intros w a w'. unfold lift. destruct (o w); intros [= <- <-]. reflexivity.
Qed.

Lemma keeps_modify f : (forall w, R w (f w)) -> keeps R (modify f).
Proof. intros Hf w a w' [= <- <-]. apply Hf. Qed.

Lemma keeps_bind {A B} (m : M A) (k : A -> M B) :
  keeps R m -> (forall a, keeps R (k a)) -> keeps R (bind m k).
Proof.
  intros Hm Hk w b w'. unfold bind.
  destruct (m w) as [[a w1]|] eqn:E; [|done].
  intros Hrun. transitivity w1; [by eapply Hm | by eapply Hk].
Qed.

Lemma keeps_mapM' {A B} (f : A -> M B) l :
  (forall x, keeps R (f x)) -> keeps R (mapM' f l).
Proof.
  intros Hf. induction l as [|x l IH]; simpl; [apply keeps_ret|].
  apply keeps_bind; [done|]. intros y.
  apply keeps_bind; [done|]. intros ys. apply keeps_ret.
Qed.

Lemma keeps_filterM' {A} (p : A -> M bool) l :
  (forall x, keeps R (p x)) -> keeps R (filterM' p l).
Proof.
  intros Hp. induction l as [|x l IH]; simpl; [apply keeps_ret|].
  apply keeps_bind; [done|]. intros b.
  apply keeps_bind; [done|]. intros ys. apply keeps_ret.
Qed.

(** The assignments. *)
Hypothesis R_objs :
  forall w o, length (objs w) <= length o -> R w (set_objs o w).
Hypothesis R_arrs : forall w a, R w (set_arrs a w).
Hypothesis R_todos : forall w r, R w (set_todos r w).
Hypothesis R_tempTodos : forall w r, R w (set_tempTodos r w).
Hypothesis R_editMode : forall w b, R w (set_editMode b w).
Hypothesis R_selected : forall w r, R w (set_todoSelectedToEdit r w).
Hypothesis R_currentUrl : forall w u, R w (set_currentUrl u w).
Hypothesis R_store :
  forall w v,
    R w (set_localStorage (<[str "todos" := v]> (localStorage w)) w).

Lemma keeps_new_obj t : keeps R (new_obj t).
Proof.
  intros w a w' [= <- <-]. apply R_objs. rewrite length_app. lia.
Qed.

Lemma keeps_read_obj r : keeps R (read_obj r).
Proof. apply keeps_lift. Qed.

Lemma keeps_write_obj r t : keeps R (write_obj r t).
Proof.
  apply keeps_bind; [apply keeps_read_obj|]. intros _.
  apply keeps_modify. intros w. apply R_objs. by rewrite length_insert.
Qed.

Lemma keeps_new_array l : keeps R (new_array l).
Proof. intros w a w' [= <- <-]. apply R_arrs. Qed.

Lemma keeps_read_array a : keeps R (read_array a).
Proof. apply keeps_lift. Qed.

Lemma keeps_write_array a l : keeps R (write_array a l).
Proof.
  apply keeps_bind; [apply keeps_read_array|]. intros _.
  apply keeps_modify. intros w. apply R_arrs.
Qed.

Lemma keeps_array_map f a :
  (forall r, keeps R (f r)) -> keeps R (array_map f a).
Proof.
  intros Hf. apply keeps_bind; [apply keeps_read_array|]. intros l.
  apply keeps_bind; [by apply keeps_mapM'|]. intros l'. apply keeps_new_array.
Qed.

Lemma keeps_array_filter p a :
  (forall r, keeps R (p r)) -> keeps R (array_filter p a).
Proof.
  intros Hp. apply keeps_bind; [apply keeps_read_array|]. intros l.
  apply keeps_bind; [by apply keeps_filterM'|]. intros l'.
  apply keeps_new_array.
Qed.

Lemma keeps_array_unshift a x : keeps R (array_unshift a x).
Proof.
  apply keeps_bind; [apply keeps_read_array|]. intros l.
  apply keeps_write_array.
Qed.

Lemma keeps_array_length a : keeps R (array_length a).
Proof.
  apply keeps_bind; [apply keeps_read_array|]. intros l. apply keeps_ret.
Qed.

Lemma keeps_read_field {A} (f : Todo -> A) r :
  keeps R (let! t := read_obj r in ret (f t)).
Proof. apply keeps_bind; [apply keeps_read_obj|]. intros t. apply keeps_ret. Qed.

Lemma keeps_getItem k : keeps R (getItem k).
Proof.
  apply keeps_bind; [apply keeps_gets|]. intros s.
  destruct (s !! k) as [v|]; [|apply keeps_ret].
  apply keeps_bind; [apply keeps_mapM', keeps_new_obj|]. intros l.
  apply keeps_bind; [apply keeps_new_array|]. intros a. apply keeps_ret.
Qed.

Lemma keeps_saveTodos : keeps R saveTodos.
Proof.
  assert (Hset : forall a, keeps R (setItem (str "todos") a)).
  { intros a. apply keeps_bind.
    - apply keeps_bind; [apply keeps_read_array|]. intros l.
      apply keeps_mapM', keeps_read_obj.
    - intros v. apply keeps_modify. intros w. apply R_store. }
  apply keeps_bind; [apply keeps_gets|]. intros url.
  destruct (decide _); (apply keeps_bind; [apply keeps_gets|]); intros a;
    apply Hset.
Qed.

Lemma keeps_filterTodos : keeps R filterTodos.
Proof.
  apply keeps_bind; [apply keeps_gets|]. intros url.
  repeat destruct (decide _);
    (apply keeps_bind; [apply keeps_gets|]); intros a;
    try (apply keeps_bind;
         [apply keeps_array_filter; intros r; apply keeps_read_field|];
         intros a');
    apply keeps_modify; intros w; apply R_tempTodos.
Qed.

Lemma keeps_ngOnInit : keeps R ngOnInit.
Proof.
  apply keeps_bind; [apply keeps_gets|]. intros url.
  apply keeps_bind; [apply keeps_modify; intros w; apply R_currentUrl|].
  intros _. apply keeps_bind; [apply keeps_getItem|]. intros [a|];
    [|apply keeps_ret].
  apply keeps_bind; [apply keeps_getItem|]. intros [a'|]; [|apply keeps_fault].
  apply keeps_bind; [apply keeps_modify; intros w; apply R_todos|].
  intros _. apply keeps_filterTodos.
Qed.

Lemma keeps_addNewTodo now event : keeps R (addNewTodo now event).
Proof.
  apply keeps_bind; [apply keeps_new_obj|]. intros newTodo.
  apply keeps_bind.
  - destruct (decide _); [|apply keeps_ret].
    apply keeps_bind; [apply keeps_gets|]. intros a.
    apply keeps_bind; [apply keeps_array_unshift|]. intros _. apply keeps_ret.
  - intros v. apply keeps_bind; [apply keeps_saveTodos|]. intros _.
    apply keeps_ret.
Qed.

Lemma keeps_toggleCheck todo : keeps R (toggleCheck todo).
Proof.
  apply keeps_bind; [apply keeps_gets|]. intros a.
  apply keeps_bind.
  - apply keeps_array_map. intros item.
    apply keeps_bind; [apply keeps_read_obj|]. intros t.
    apply keeps_bind; [apply keeps_read_obj|]. intros i.
    destruct (decide _); [apply keeps_new_obj | apply keeps_ret].
  - intros a'.
    apply keeps_bind; [apply keeps_modify; intros w; apply R_tempTodos|].
    intros _. apply keeps_saveTodos.
Qed.

Lemma keeps_deleteTodo target : keeps R (deleteTodo target).
Proof.
  apply keeps_bind; [apply keeps_gets|]. intros a.
  apply keeps_bind.
  - apply keeps_array_filter. intros item.
    apply keeps_bind; [apply keeps_read_obj|]. intros i.
    apply keeps_read_field.
  - intros a'.
    apply keeps_bind; [apply keeps_modify; intros w; apply R_tempTodos|].
    intros _. apply keeps_bind; [apply keeps_gets|]. intros b.
    apply keeps_bind; [apply keeps_modify; intros w; apply R_todos|].
    intros _. apply keeps_saveTodos.
Qed.

Lemma keeps_selectTodoToEdit target : keeps R (selectTodoToEdit target).
Proof.
  apply keeps_bind; [apply keeps_modify; intros w; apply R_editMode|].
  intros _. apply keeps_modify. intros w. apply R_selected.
Qed.

Lemma keeps_editTodo event : keeps R (editTodo event).
Proof.
  apply keeps_bind; [apply keeps_gets|]. intros [s|]; [|apply keeps_fault].
  apply keeps_bind; [apply keeps_read_obj|]. intros t.
  apply keeps_bind; [apply keeps_write_obj|]. intros _.
  destruct (decide _) as [Hesc|Hesc];
    [apply keeps_modify; intros w; apply R_editMode|].
  apply keeps_bind; [|intros _; apply keeps_saveTodos].
  destruct (decide _) as [Hent|Hent]; [|apply keeps_ret].
  apply keeps_bind; [apply keeps_gets|]. intros a.
  apply keeps_bind.
  - apply keeps_array_map. intros item.
    apply keeps_bind; [apply keeps_read_obj|]. intros sel.
    apply keeps_bind; [apply keeps_read_obj|]. intros i.
    destruct (decide _); [apply keeps_new_obj | apply keeps_ret].
  - intros a'.
    apply keeps_bind; [apply keeps_modify; intros w; apply R_tempTodos|].
    intros _. apply keeps_modify. intros w. apply R_editMode.
Qed.

Lemma keeps_pendingTodos : keeps R pendingTodos.
Proof.
  apply keeps_bind; [apply keeps_gets|]. intros a.
  apply keeps_bind;
    [apply keeps_array_filter; intros r; apply keeps_read_field|].
  intros a'. apply keeps_array_length.
Qed.

Lemma keeps_clearCompleted : keeps R clearCompleted.
Proof.
  apply keeps_bind; [apply keeps_gets|]. intros url.
  destruct (decide _) as [Hu|Hu].
  - apply keeps_bind; [apply keeps_new_array|]. intros empty.
    apply keeps_bind; [apply keeps_modify; intros w; apply R_tempTodos|].
    intros _. apply keeps_bind; [apply keeps_gets|]. intros a.
    apply keeps_bind;
      [apply keeps_array_filter; intros r; apply keeps_read_field|].
    intros a'.
    apply keeps_bind; [apply keeps_modify; intros w; apply R_todos|].
    intros _. apply keeps_saveTodos.
  - apply keeps_bind; [apply keeps_gets|]. intros a.
    apply keeps_bind;
      [apply keeps_array_filter; intros r; apply keeps_read_field|].
    intros a'.
    apply keeps_bind; [apply keeps_modify; intros w; apply R_todos|].
    intros _. apply keeps_bind; [apply keeps_gets|]. intros b.
    apply keeps_bind; [apply keeps_modify; intros w; apply R_tempTodos|].
    intros _. apply keeps_saveTodos.
Qed.
End keeps.

#[global] Instance other_keys_kept_preorder : PreOrder other_keys_kept.
Proof.
  split.
  - by intros w k Hk.
  - intros w1 w2 w3 H12 H23 k Hk. by rewrite H23, H12.
Qed.

#[global] Instance same_preorder {A} (f : World -> A) : PreOrder (same f).
Proof.
  split.
  - by intros w.
  - intros w1 w2 w3 H12 H23. unfold same in *. congruence.
Qed.

#[global] Instance objs_grow_preorder : PreOrder objs_grow.
Proof.
  split.
  - intros w. unfold objs_grow. lia.
  - intros w1 w2 w3. unfold objs_grow. lia.
Qed.

Lemma other_keys_kept_store w v :
  other_keys_kept w
    (set_localStorage (<[str "todos" := v]> (localStorage w)) w).
Proof. intros k Hk. simpl. by rewrite lookup_insert_ne. Qed.

Ltac frame_side :=
  lazymatch goal with
  | |- PreOrder _ => apply _
  | |- _ =>
      intros;
      first [ exact (other_keys_kept_store _ _)
            | hnf; simpl; first [ done | lia | by intros ] ]
  end.

(** X1.  The store is written under the key [todos] only: whatever a
    method does, every other key holds what it held before the call. *)
Theorem methods_keep_other_keys :
  keeps other_keys_kept ngOnInit
  /\ (forall now event, keeps other_keys_kept (addNewTodo now event))
  /\ (forall todo, keeps other_keys_kept (toggleCheck todo))
  /\ (forall todo, keeps other_keys_kept (deleteTodo todo))
  /\ (forall todo, keeps other_keys_kept (selectTodoToEdit todo))
  /\ (forall event, keeps other_keys_kept (editTodo event))
  /\ keeps other_keys_kept pendingTodos
  /\ keeps other_keys_kept clearCompleted
  /\ keeps other_keys_kept filterTodos
  /\ keeps other_keys_kept saveTodos.
Proof.
  repeat split; intros.
  - apply keeps_ngOnInit; frame_side.
  - apply keeps_addNewTodo; frame_side.
  - apply keeps_toggleCheck; frame_side.
  - apply keeps_deleteTodo; frame_side.
  - apply keeps_selectTodoToEdit; frame_side.
  - apply keeps_editTodo; frame_side.
  - apply keeps_pendingTodos; frame_side.
  - apply keeps_clearCompleted; frame_side.
  - apply keeps_filterTodos; frame_side.
  - apply keeps_saveTodos; frame_side.
Qed.

(** X2.  The route is read once: [ngOnInit] copies the url of the router
    into [currentUrl], and no other method assigns [currentUrl]; no
    method at all changes the url of the router. *)
Theorem currentUrl_set_by_ngOnInit_only :
  (forall w w', ngOnInit w = Some (tt, w') -> currentUrl w' = router_url w)
  /\ (forall now event, keeps (same currentUrl) (addNewTodo now event))
  /\ (forall todo, keeps (same currentUrl) (toggleCheck todo))
  /\ (forall todo, keeps (same currentUrl) (deleteTodo todo))
  /\ (forall todo, keeps (same currentUrl) (selectTodoToEdit todo))
  /\ (forall event, keeps (same currentUrl) (editTodo event))
  /\ keeps (same currentUrl) pendingTodos
  /\ keeps (same currentUrl) clearCompleted
  /\ keeps (same currentUrl) filterTodos
  /\ keeps (same currentUrl) saveTodos.
Proof.
  split; [|repeat split; intros].
  - intros w w'. unfold ngOnInit. run_simple.
    set (w1 := set_currentUrl _ w). intros Hrun.
    assert (Hk : keeps (same currentUrl)
                   (let! v := getItem (str "todos") in
                    match v with
                    | Some _ =>
                        let! v' := getItem (str "todos") in
                        match v' with
                        | Some a => modify (set_todos a);; filterTodos
                        | None => fault
                        end
                    | None => ret tt
                    end)).
    { apply (keeps_bind (same currentUrl));
        [apply (keeps_getItem (same currentUrl)); frame_side|].
      intros [a|]; [|apply (keeps_ret (same currentUrl))].
      apply (keeps_bind (same currentUrl));
        [apply (keeps_getItem (same currentUrl)); frame_side|].
      intros [a'|]; [|apply keeps_fault].
      apply (keeps_bind (same currentUrl));
        [apply (keeps_modify (same currentUrl)); frame_side|].
      intros _. apply (keeps_filterTodos (same currentUrl)); frame_side. }
    by rewrite (Hk _ _ _ Hrun).
  - apply keeps_addNewTodo; frame_side.
  - apply keeps_toggleCheck; frame_side.
  - apply keeps_deleteTodo; frame_side.
  - apply keeps_selectTodoToEdit; frame_side.
  - apply keeps_editTodo; frame_side.
  - apply keeps_pendingTodos; frame_side.
  - apply keeps_clearCompleted; frame_side.
  - apply keeps_filterTodos; frame_side.
  - apply keeps_saveTodos; frame_side.
Qed.

(** X3.  Only [selectTodoToEdit] assigns the selected todo, and only it
    and [editTodo] assign [editMode]: every other method leaves both as
    they were, and [editTodo] leaves the selection.  So a selection, once
    made, is never cleared. *)
Theorem selection_set_by_selectTodoToEdit_only :
  keeps (same todoSelectedToEdit) ngOnInit
  /\ keeps (same editMode) ngOnInit
  /\ (forall now event, keeps (same todoSelectedToEdit) (addNewTodo now event))
  /\ (forall now event, keeps (same editMode) (addNewTodo now event))
  /\ (forall todo, keeps (same todoSelectedToEdit) (toggleCheck todo))
  /\ (forall todo, keeps (same editMode) (toggleCheck todo))
  /\ (forall todo, keeps (same todoSelectedToEdit) (deleteTodo todo))
  /\ (forall todo, keeps (same editMode) (deleteTodo todo))
  /\ (forall event, keeps (same todoSelectedToEdit) (editTodo event))
  /\ keeps (same todoSelectedToEdit) pendingTodos
  /\ keeps (same editMode) pendingTodos
  /\ keeps (same todoSelectedToEdit) clearCompleted
  /\ keeps (same editMode) clearCompleted
  /\ (forall todo w w',
        selectTodoToEdit todo w = Some (tt, w') ->
        todoSelectedToEdit w' = Some todo /\ editMode w' = true).
Proof.
  repeat split; intros;
    first [ apply keeps_ngOnInit; frame_side
          | apply keeps_addNewTodo; frame_side
          | apply keeps_toggleCheck; frame_side
          | apply keeps_deleteTodo; frame_side
          | apply keeps_editTodo; frame_side
          | apply keeps_pendingTodos; frame_side
          | apply keeps_clearCompleted; frame_side
          | idtac ].
  - by injection H as <-.
  - by injection H as <-.
Qed.

(** *** No faults in a state without dangling references *)

Lemma pendingTodos_run w all vis :
  allTodos w = Some all -> visibleTodos w = Some vis ->
  exists w',
    pendingTodos w
    = Some (length (filter (fun t => completed t = false) all), w')
    /\ allTodos w' = Some all /\ visibleTodos w' = Some vis.
Proof.
  intros Hall Hvis. unfold pendingTodos. run_simple.
  destruct (array_filter_ok
              (fun r => let! t := read_obj r in ret (negb (completed t)))
              (fun t => negb (completed t)) w (todos w) all)
    as (l' & Hrun & Hl');
    [intros; by apply (read_field_pure (fun t => negb (completed t))) | done |].
  run_with Hrun. unfold array_length.
  run_with (read_array_last (set_arrs (arrs w ++ [l']) w) (arrs w) l' eq_refl).
  rewrite filter_negb_completed in Hl'. apply values_length in Hl'.
  eexists. split; [unfold ret; by rewrite Hl'|].
  split; by apply (deref_grown w _ _ _ [] [l']); [simpl; by rewrite app_nil_r|..].
Qed.

Lemma clearCompleted_run w all vis :
  allTodos w = Some all -> visibleTodos w = Some vis ->
  exists w',
    clearCompleted w = Some (tt, w')
    /\ allTodos w'
       = Some (filter (fun t => completed t = false)
                 (route_selected (currentUrl w) all vis))
    /\ visibleTodos w'
       = Some (route_selected (currentUrl w) []
                 (filter (fun t => completed t = false) vis))
    /\ localStorage w'
       = <[str "todos" :=
             filter (fun t => completed t = false)
               (route_selected (currentUrl w) all vis)]> (localStorage w)
    /\ currentUrl w' = currentUrl w.
Proof.
  intros Hall Hvis. unfold clearCompleted, route_selected. run_simple.
  destruct (decide (currentUrl w = str "/completed")) as [Hu|Hu].
  - run_simple.
    set (w2 := set_tempTodos _ _).
    assert (Hall2 : deref w2 (todos w) = Some all)
      by (by apply (deref_grown w _ _ _ [] [[]]); [simpl; by rewrite app_nil_r|..]).
    destruct (array_filter_ok
                (fun r => let! t := read_obj r in
                          ret (bool_decide (completed t = false)))
                (fun t => bool_decide (completed t = false))
                w2 (todos w2) all (clearCompleted_pred_pure w2) Hall2)
      as (l' & Hrun & Hl').
    rewrite filter_bool_decide_completed in Hl'.
    run_with Hrun. run_simple.
    set (w4 := set_todos _ _).
    assert (Ha4 : allTodos w4 = Some (filter (fun t => completed t = false) all)).
    { unfold allTodos. subst w4. simpl.
      rewrite (deref_last _ (arrs w ++ [[]]) l') by done. done. }
    assert (Hv4 : visibleTodos w4 = Some []).
    { unfold visibleTodos, deref. subst w4. simpl.
      rewrite <- (assoc_L (++)). simpl. by rewrite list_lookup_middle. }
    rewrite (saveTodos_ok _ _ _ Ha4 Hv4).
    eexists. split; [done|]. split; [done|]. split; [done|].
    split; [|done]. simpl. unfold route_selected. by rewrite decide_True.
  - run_simple.
    destruct (array_filter_ok
                (fun r => let! t := read_obj r in
                          ret (bool_decide (completed t = false)))
                (fun t => bool_decide (completed t = false))
                w (tempTodos w) vis (clearCompleted_pred_pure w) Hvis)
      as (l' & Hrun & Hl').
    rewrite filter_bool_decide_completed in Hl'.
    run_with Hrun. run_simple.
    set (w4 := set_tempTodos _ _).
    assert (Ha4 : allTodos w4 = Some (filter (fun t => completed t = false) vis)).
    { unfold allTodos. subst w4. simpl.
      rewrite (deref_last _ (arrs w) l') by done. done. }
    assert (Hv4 : visibleTodos w4 = Some (filter (fun t => completed t = false) vis))
      by exact Ha4.
    rewrite (saveTodos_ok _ _ _ Ha4 Hv4).
    eexists. split; [done|]. split; [done|]. split; [done|].
    split; [|done]. simpl. unfold route_selected. by rewrite decide_False.
Qed.





(** *** Initialisation *)

(** X5.  Nothing stored under [todos]: [ngOnInit] of a new component
    only takes the route.  Both lists stay empty, in two distinct arrays,
    and nothing is written. *)
Theorem ngOnInit_nothing_stored url store :
  store !! str "todos" = None ->
  exists w',
    ngOnInit (construct url store) = Some (tt, w')
    /\ currentUrl w' = url
    /\ allTodos w' = Some [] /\ visibleTodos w' = Some []
    /\ todos w' <> tempTodos w'
    /\ editMode w' = false /\ todoSelectedToEdit w' = None
    /\ localStorage w' = store.
Proof.
  intros Hs. rewrite (ngOnInit_empty (construct url store) Hs).
  eexists. split; [done|]. by repeat split.
Qed.

Lemma filterTodos_other_route w :
  currentUrl w <> str "/completed" -> currentUrl w <> str "/pending" ->
  filterTodos w = Some (tt, set_tempTodos (todos w) w).
Proof.
  intros Hc Hp. unfold filterTodos. run_simple.
  rewrite decide_False by done. rewrite decide_False by done. by run_simple.
Qed.

(** X6.  A list stored under [todos]: after [ngOnInit] of a new
    component [allTodos] is the stored list and [visibleTodos] its filter
    by the route, in the stored order; nothing is written.  On a route
    other than [/completed] and [/pending] the two fields are one and
    the same array. *)
Theorem ngOnInit_loads_and_filters url store v :
  store !! str "todos" = Some v ->
  exists w',
    ngOnInit (construct url store) = Some (tt, w')
    /\ currentUrl w' = url
    /\ allTodos w' = Some v
    /\ visibleTodos w' = Some (route_filter url v)
    /\ localStorage w' = store
    /\ (url <> str "/completed" -> url <> str "/pending" ->
        todos w' = tempTodos w').
Proof.
  intros Hs.
  destruct (ngOnInit_run (construct url store) v Hs)
    as (w' & Hrun & Hu & Ha & Hv & Hst & _).
  exists w'. split; [done|]. split; [done|]. split; [done|]. split; [done|].
  split; [done|]. intros Hc Hp.
  revert Hrun. unfold ngOnInit. run_simple.
  set (w1 := set_currentUrl _ _).
  run_with (getItem_Some (str "todos") v w1 Hs).
  set (w2 := set_arrs _ _).
  run_with (getItem_Some (str "todos") v w2 Hs : getItem _ w2 = _). run_simple.
  rewrite filterTodos_other_route by done. by intros [= <-].
Qed.

(** *** [addNewTodo] and the two arrays *)

(** X7.  [unshift] changes the array of [tempTodos] in place.  So a todo
    added by Enter is in [allTodos] too, and is stored on every route,
    when [todos] is that same array; when it is another array,
    [allTodos] does not change, and on [/completed] the stored list is
    that unchanged [allTodos]. *)
Theorem addNewTodo_Enter_reaches_allTodos_by_aliasing now rawText w all vis :
  allTodos w = Some all -> visibleTodos w = Some vis ->
  exists w',
    addNewTodo now (Enter rawText) w = Some ([], w')
    /\ (todos w = tempTodos w ->
        allTodos w' = Some (candidate now rawText :: all)
        /\ stored w' = Some (candidate now rawText :: all))
    /\ (todos w <> tempTodos w ->
        allTodos w' = Some all
        /\ (currentUrl w = str "/completed" -> stored w' = Some all)).
Proof.
  intros Hall Hvis.
  destruct (addNewTodo_Enter_run now rawText w all vis Hall Hvis)
    as (w' & Hrun & Hv & Ha & Hs & _).
  exists w'. split; [done|]. unfold stored. rewrite Hs, lookup_insert_eq.
  unfold route_selected.
  split; intros Hal; destruct (decide (todos w = tempTodos w)); try done.
  - split; [done|].
    assert (all = vis) as ->
      by (unfold allTodos, visibleTodos in *; rewrite Hal in Hall; congruence).
    by destruct (decide _).
  - split; [done|]. intros Hu. by rewrite decide_True.
Qed.

Lemma addMany_run_fields calls w all vis :
  allTodos w = Some all -> visibleTodos w = Some vis ->
  exists w',
    addMany calls w = Some (tt, w')
    /\ allTodos w'
       = Some (if decide (todos w = tempTodos w)
               then rev (map (fun c => candidate c.1 c.2) calls) ++ all
               else all)
    /\ visibleTodos w'
       = Some (rev (map (fun c => candidate c.1 c.2) calls) ++ vis).
Proof.
  revert w all vis. induction calls as [|[now rawText] calls IH];
    intros w all vis Hall Hvis; simpl.
  - exists w. split; [done|]. by destruct (decide _).
  - destruct (addNewTodo_Enter_run now rawText w all vis Hall Hvis)
      as (w1 & Hrun & Hv1 & Ha1 & _ & Ht & Htt & _).
    destruct (IH w1 _ _ Ha1 Hv1) as (w' & Hrun' & Ha' & Hv').
    exists w'. split; [by run_with Hrun|]. rewrite Ht, Htt in Ha'.
    split; [|by rewrite <- (assoc_L (++))].
    rewrite Ha'. destruct (decide _); [|done]. by rewrite <- (assoc_L (++)).
Qed.

Lemma filter_pending_candidates (calls : list (Z * jsstring)) :
  filter (fun t => completed t = false)
    (rev (map (fun c => candidate c.1 c.2) calls))
  = rev (map (fun c => candidate c.1 c.2) calls).
Proof.
  apply filter_all. intros t Ht.
  rewrite list_elem_of_In, <- in_rev, in_map_iff in Ht.
  by destruct Ht as (c & <- & _).
Qed.

(** X8.  [pendingTodos] after a sequence of additions by Enter: the
    count grows by the number of additions when the two fields are one
    array, and does not move when they are two, because it is taken
    from [todos]. *)
Theorem pendingTodos_after_additions calls w all vis :
  allTodos w = Some all -> visibleTodos w = Some vis ->
  exists w1 w2,
    addMany calls w = Some (tt, w1)
    /\ pendingTodos w1
       = Some ((if decide (todos w = tempTodos w) then length calls else 0)
               + length (filter (fun t => completed t = false) all), w2).
Proof.
  intros Hall Hvis.
  destruct (addMany_run_fields calls w all vis Hall Hvis)
    as (w1 & Hrun & Ha1 & Hv1).
  destruct (pendingTodos_run w1 _ _ Ha1 Hv1) as (w2 & Hcount & _).
  exists w1, w2. split; [done|]. rewrite Hcount. do 2 f_equal.
  destruct (decide _); [|done].
  rewrite filter_app, length_app, filter_pending_candidates.
  by rewrite length_rev, length_map.
Qed.

(** *** [deleteTodo] *)

(** X9.  [deleteTodo] removes from [visibleTodos] every entry with the
    id of its argument and keeps the others in their order.  It then
    makes [todos] the same array as [tempTodos] and saves: [allTodos]
    and the stored value become the new [visibleTodos] on every route,
    so the entries of [allTodos] that the route did not show are gone. *)
Theorem deleteTodo_removes_and_collapses target o w vis :
  objs w !! target = Some o ->
  visibleTodos w = Some vis ->
  exists w' vis',
    deleteTodo target w = Some (tt, w')
    /\ vis' = filter (fun t => id t <> id o) vis
    /\ visibleTodos w' = Some vis'
    /\ allTodos w' = Some vis'
    /\ stored w' = Some vis'
    /\ todos w' = tempTodos w'
    /\ (forall t, t ∈ vis' -> id t <> id o)
    /\ length vis' <= length vis.
Proof.
  intros Ho Hvis.
  destruct (deleteTodo_run target o w vis Ho Hvis)
    as (w' & Hrun & Hv & Ha & Hs & Hal & _).
  exists w', (filter (fun t => id t <> id o) vis).
  split; [done|]. split; [done|]. split; [done|]. split; [done|].
  split; [unfold stored; by rewrite Hs, lookup_insert_eq|]. split; [done|].
  split; [|apply length_filter].
  intros t Ht. by apply list_elem_of_filter in Ht as [? _].
Qed.

(** X10.  After a [deleteTodo] the two fields are one array, so a todo
    then added by Enter is in both lists and in the stored value on
    every route, [/completed] too. *)
Theorem deleteTodo_then_addNewTodo_is_stored target o now rawText w vis :
  objs w !! target = Some o ->
  visibleTodos w = Some vis ->
  exists w1 w2 vis2,
    deleteTodo target w = Some (tt, w1)
    /\ addNewTodo now (Enter rawText) w1 = Some ([], w2)
    /\ vis2 = candidate now rawText :: filter (fun t => id t <> id o) vis
    /\ visibleTodos w2 = Some vis2
    /\ allTodos w2 = Some vis2
    /\ stored w2 = Some vis2.
Proof.
  intros Ho Hvis.
  destruct (deleteTodo_run target o w vis Ho Hvis)
    as (w1 & Hrun1 & Hv1 & Ha1 & _ & Hal & _).
  destruct (addNewTodo_Enter_run now rawText w1 _ _ Ha1 Hv1)
    as (w2 & Hrun2 & Hv2 & Ha2 & Hs2 & _).
  rewrite decide_True in Ha2, Hs2 by done.
  exists w1, w2, (candidate now rawText :: filter (fun t => id t <> id o) vis).
  split; [done|]. split; [done|]. split; [done|]. split; [done|].
  split; [done|]. unfold stored. rewrite Hs2, lookup_insert_eq.
  unfold route_selected. by destruct (decide _).
Qed.

(** *** [toggleCheck] *)

(** X11.  [toggleCheck] does not move the count of [pendingTodos]: the
    count is taken from [todos], and the toggle replaces entries of
    [tempTodos] by copies. *)
Theorem toggleCheck_keeps_pending_count todo o w all vis :
  objs w !! todo = Some o ->
  allTodos w = Some all -> visibleTodos w = Some vis ->
  exists n w0 w1 w2,
    pendingTodos w = Some (n, w0)
    /\ toggleCheck todo w = Some (tt, w1)
    /\ pendingTodos w1 = Some (n, w2).
Proof.
  intros Ho Hall Hvis.
  destruct (pendingTodos_run w all vis Hall Hvis) as (w0 & Hcount & _).
  destruct (toggleCheck_run todo o w all vis Ho Hall Hvis)
    as (w1 & Hrun & Hv1 & Ha1 & _).
  destruct (pendingTodos_run w1 all _ Ha1 Hv1) as (w2 & Hcount' & _).
  by eexists _, w0, w1, w2.
Qed.

(** X12.  On a route other than [/completed] the toggle is saved: the
    stored value is the new [visibleTodos], and a new component on the
    same route starts from it. *)
Theorem toggleCheck_saved_off_completed todo o w all vis :
  currentUrl w <> str "/completed" ->
  objs w !! todo = Some o ->
  allTodos w = Some all -> visibleTodos w = Some vis ->
  exists w' w'',
    toggleCheck todo w = Some (tt, w')
    /\ stored w' = Some (toggled (id o) <$> vis)
    /\ ngOnInit (construct (currentUrl w) (localStorage w')) = Some (tt, w'')
    /\ allTodos w'' = Some (toggled (id o) <$> vis)
    /\ visibleTodos w''
       = Some (route_filter (currentUrl w) (toggled (id o) <$> vis)).
Proof.
  intros Hu Ho Hall Hvis.
  destruct (toggleCheck_run todo o w all vis Ho Hall Hvis)
    as (w' & Hrun & Hv & Ha & Hs & _).
  unfold route_selected in Hs. rewrite decide_False in Hs by done.
  assert (Hst : stored w' = Some (toggled (id o) <$> vis))
    by (unfold stored; by rewrite Hs, lookup_insert_eq).
  destruct (ngOnInit_run (construct (currentUrl w) (localStorage w')) _ Hst)
    as (w'' & Hinit & _ & Ha'' & Hv'' & _).
  by exists w', w''.
Qed.

(** *** [clearCompleted] *)

Lemma filter_pending_idemp (l : list Todo) :
  filter (fun t => completed t = false) (filter (fun t => completed t = false) l)
  = filter (fun t => completed t = false) l.
Proof. rewrite list_filter_filter. apply list_filter_iff. intros t. tauto. Qed.

(** X13.  [clearCompleted] saves what it leaves in [allTodos], on every
    route, and a second call changes nothing more: both lists and the
    stored value are as the first call left them. *)
Theorem clearCompleted_twice w all vis :
  allTodos w = Some all -> visibleTodos w = Some vis ->
  exists w1 w2,
    clearCompleted w = Some (tt, w1)
    /\ stored w1 = allTodos w1
    /\ clearCompleted w1 = Some (tt, w2)
    /\ allTodos w2 = allTodos w1
    /\ visibleTodos w2 = visibleTodos w1
    /\ stored w2 = stored w1.
Proof.
  intros Hall Hvis.
  destruct (clearCompleted_run w all vis Hall Hvis)
    as (w1 & Hrun1 & Ha1 & Hv1 & Hs1 & Hu1).
  destruct (clearCompleted_run w1 _ _ Ha1 Hv1)
    as (w2 & Hrun2 & Ha2 & Hv2 & Hs2 & _).
  assert (Hst1 : stored w1 = allTodos w1)
    by (unfold stored; by rewrite Hs1, lookup_insert_eq, Ha1).
  assert (Ha21 : allTodos w2 = allTodos w1).
  { rewrite Ha2, Ha1, Hu1. unfold route_selected.
    destruct (decide _); by rewrite filter_pending_idemp. }
  exists w1, w2. split; [done|]. split; [done|]. split; [done|].
  split; [done|]. split.
  - rewrite Hv2, Hv1, Hu1. unfold route_selected.
    destruct (decide _); [done|]. by rewrite filter_pending_idemp.
  - rewrite Hst1, <- Ha21, Ha2. unfold stored.
    by rewrite Hs2, lookup_insert_eq.
Qed.

(** X14.  After [clearCompleted] every entry of [allTodos] is pending:
    [pendingTodos] returns the length of [allTodos]. *)
Theorem pendingTodos_after_clearCompleted w all vis :
  allTodos w = Some all -> visibleTodos w = Some vis ->
  exists w1 all1 w2,
    clearCompleted w = Some (tt, w1)
    /\ allTodos w1 = Some all1
    /\ pendingTodos w1 = Some (length all1, w2).
Proof.
  intros Hall Hvis.
  destruct (clearCompleted_run w all vis Hall Hvis)
    as (w1 & Hrun1 & Ha1 & Hv1 & _).
  destruct (pendingTodos_run w1 _ _ Ha1 Hv1) as (w2 & Hcount & _).
  rewrite filter_pending_idemp in Hcount.
  by eexists w1, _, w2.
Qed.

(** *** [editTodo] by Enter and by other keys *)



(** X16.  [editTodo] by a key that is neither Enter nor Escape: the
    title is assigned to the selected object, [editMode] and the
    selection stay, and the list chosen by the route is saved with the
    title as it now is.  Every entry of [visibleTodos] that is the
    selected object shows the new title. *)
Theorem editTodo_other_key_assigns_and_saves k rawText w r old lv all vis :
  k <> str "Escape" -> k <> str "Enter" ->
  todoSelectedToEdit w = Some r ->
  objs w !! r = Some old ->
  allTodos w = Some all ->
  arrs w !! tempTodos w = Some lv -> visibleTodos w = Some vis ->
  exists w' all' vis',
    editTodo (mkKeyboardEvent k rawText) w = Some (tt, w')
    /\ allTodos w' = Some all' /\ visibleTodos w' = Some vis'
    /\ stored w' = Some (route_selected (currentUrl w) all' vis')
    /\ editMode w' = editMode w
    /\ todoSelectedToEdit w' = Some r
    /\ objs w' !! r = Some (retitled old (trim rawText))
    /\ (forall i, lv !! i = Some r ->
          vis' !! i = Some (retitled old (trim rawText)))
    /\ (forall i r', lv !! i = Some r' -> r' <> r -> vis' !! i = vis !! i).
Proof.
  intros Hesc Hent Hsel Hr Hall Hlv Hvis.
  destruct (deref_Some _ _ _ Hall) as (la & Hla & Hva).
  pose proof Hvis as Hvv. unfold visibleTodos in Hvv.
  rewrite (deref_values _ _ _ Hlv) in Hvv.
  destruct (editTodo_run (mkKeyboardEvent k rawText) w r old la lv all vis
              Hsel Hr Hla Hva Hlv Hvv)
    as (w' & Hrun & Ha & Hv & He & Hs & Hsel' & _ & Hr').
  cbn [key value] in Hv, He, Hs, Hr', Ha.
  destruct (decide (k = str "Escape")); [done|].
  destruct (decide (k = str "Enter")); [done|].
  destruct Hs as (v & Hv' & Hs). rewrite Hv in Hv'. injection Hv' as <-.
  eexists w', _, _. split; [done|]. split; [exact Ha|]. split; [exact Hv|].
  split; [unfold stored; by rewrite Hs, lookup_insert_eq|].
  split; [done|]. split; [done|]. split; [done|].
  apply values_length in Hvv.
  split.
  - intros i Hi. unfold edited. rewrite lookup_zip_with, Hi. simpl.
    destruct (lookup_lt_is_Some_2 vis i) as [t Ht];
      [rewrite Hvv; by eapply lookup_lt_Some|].
    rewrite Ht. simpl. by rewrite decide_True.
  - intros i r' Hi Hne. unfold edited. rewrite lookup_zip_with, Hi. simpl.
    destruct (vis !! i); simpl; [by rewrite decide_False|done].
Qed.

(** *** Titles are trimmed *)







(** ** The further properties at concrete states *)

Lemma methods_keep_other_keys_witness :
  exists w',
    addNewTodo 5 (Enter (str "c")) world_two_keys = Some ([], w')
    /\ stored w' = Some [mkTodo 5 (str "c") false; todo_a false]
    /\ localStorage w' !! str "theme" = Some [todo_b true].
Proof.
  exists (exec (addNewTodo 5 (Enter (str "c"))) world_two_keys).
  assert (Hrun : addNewTodo 5 (Enter (str "c")) world_two_keys
                 = Some ([], exec (addNewTodo 5 (Enter (str "c"))) world_two_keys))
    by by_evaluation.
  split; [exact Hrun|]. split; [by_evaluation|].
  destruct methods_keep_other_keys as (_ & Hadd & _).
  rewrite (Hadd _ _ _ _ _ Hrun (str "theme")) by (vm_compute; discriminate).
  by_evaluation.
Defined.

Lemma currentUrl_set_by_ngOnInit_only_witness :
  exists w',
    toggleCheck 2 world_pending = Some (tt, w')
    /\ currentUrl w' = str "/pending".
Proof.
  exists (exec (toggleCheck 2) world_pending).
  assert (Hrun : toggleCheck 2 world_pending
                 = Some (tt, exec (toggleCheck 2) world_pending))
    by by_evaluation.
  split; [exact Hrun|].
  destruct currentUrl_set_by_ngOnInit_only as (_ & _ & Htoggle & _).
  transitivity (currentUrl world_pending);
    [exact (Htoggle _ _ _ _ Hrun) | by_evaluation].
Defined.

Lemma selection_set_by_selectTodoToEdit_only_witness :
  exists w',
    deleteTodo 1 world_editing = Some (tt, w')
    /\ todoSelectedToEdit w' = Some 1.
Proof.
  exists (exec (deleteTodo 1) world_editing).
  assert (Hrun : deleteTodo 1 world_editing
                 = Some (tt, exec (deleteTodo 1) world_editing))
    by by_evaluation.
  split; [exact Hrun|].
  destruct selection_set_by_selectTodoToEdit_only
    as (_ & _ & _ & _ & _ & _ & Hdelete & _).
  transitivity (todoSelectedToEdit world_editing);
    [exact (Hdelete _ _ _ _ Hrun) | by_evaluation].
Defined.



Lemma ngOnInit_nothing_stored_witness :
  (∅ : gmap jsstring (list Todo)) !! str "todos" = None
  /\ exists w',
       ngOnInit (construct (str "/pending") ∅) = Some (tt, w')
       /\ currentUrl w' = str "/pending"
       /\ allTodos w' = Some [] /\ visibleTodos w' = Some [].
Proof.
  assert (H0 : (∅ : gmap jsstring (list Todo)) !! str "todos" = None)
    by by_evaluation.
  split; [exact H0|].
  destruct (ngOnInit_nothing_stored (str "/pending") ∅ H0)
    as (w' & Hrun & Hu & Ha & Hv & _).
  exists w'. split; [exact Hrun|]. split; [exact Hu|]. split; [exact Ha|exact Hv].
Defined.

Lemma ngOnInit_loads_and_filters_witness :
  ({[ str "todos" := [todo_a false; todo_b true] ]}
     : gmap jsstring (list Todo)) !! str "todos"
  = Some [todo_a false; todo_b true]
  /\ exists w',
       ngOnInit (construct (str "/pending")
                   {[ str "todos" := [todo_a false; todo_b true] ]})
       = Some (tt, w')
       /\ allTodos w' = Some [todo_a false; todo_b true]
       /\ visibleTodos w' = Some [todo_a false].
Proof.
  assert (H0 : ({[ str "todos" := [todo_a false; todo_b true] ]}
                  : gmap jsstring (list Todo)) !! str "todos"
               = Some [todo_a false; todo_b true]) by by_evaluation.
  split; [exact H0|].
  destruct (ngOnInit_loads_and_filters (str "/pending") _ _ H0)
    as (w' & Hrun & _ & Ha & Hv & _).
  exists w'. split; [exact Hrun|]. split; [exact Ha|exact Hv].
Defined.

Lemma addNewTodo_Enter_reaches_allTodos_by_aliasing_witness :
  allTodos world_all = Some [todo_a true; todo_b false]
  /\ visibleTodos world_all = Some [todo_a true; todo_b false]
  /\ exists w',
       addNewTodo 5 (Enter (str "c")) world_all = Some ([], w')
       /\ allTodos w'
          = Some [mkTodo 5 (str "c") false; todo_a true; todo_b false]
       /\ stored w'
          = Some [mkTodo 5 (str "c") false; todo_a true; todo_b false].
Proof.
  assert (H1 : allTodos world_all = Some [todo_a true; todo_b false])
    by by_evaluation.
  assert (H2 : visibleTodos world_all = Some [todo_a true; todo_b false])
    by by_evaluation.
  assert (H3 : todos world_all = tempTodos world_all) by by_evaluation.
  split; [exact H1|]. split; [exact H2|].
  destruct (addNewTodo_Enter_reaches_allTodos_by_aliasing 5 (str "c")
              world_all _ _ H1 H2)
    as (w' & Hrun & Hsame & _).
  destruct (Hsame H3) as [Ha Hs].
  exists w'. split; [exact Hrun|]. split; [exact Ha|exact Hs].
Defined.

Lemma pendingTodos_after_additions_witness :
  allTodos world_all = Some [todo_a true; todo_b false]
  /\ visibleTodos world_all = Some [todo_a true; todo_b false]
  /\ exists w1 w2,
       addMany [(5%Z, str "c"); (6%Z, str "d")] world_all = Some (tt, w1)
       /\ pendingTodos w1 = Some (3, w2).
Proof.
  assert (H1 : allTodos world_all = Some [todo_a true; todo_b false])
    by by_evaluation.
  assert (H2 : visibleTodos world_all = Some [todo_a true; todo_b false])
    by by_evaluation.
  split; [exact H1|]. split; [exact H2|].
  destruct (pendingTodos_after_additions [(5%Z, str "c"); (6%Z, str "d")]
              world_all _ _ H1 H2)
    as (w1 & w2 & Hrun & Hcount).
  exists w1, w2. split; [exact Hrun|exact Hcount].
Defined.

Lemma deleteTodo_removes_and_collapses_witness :
  objs world_pending !! 2 = Some (todo_a false)
  /\ visibleTodos world_pending = Some [todo_a false]
  /\ allTodos world_pending = Some [todo_a false; todo_b true]
  /\ exists w',
       deleteTodo 2 world_pending = Some (tt, w')
       /\ visibleTodos w' = Some []
       /\ allTodos w' = Some []
       /\ stored w' = Some [].
Proof.
  assert (H1 : objs world_pending !! 2 = Some (todo_a false)) by by_evaluation.
  assert (H2 : visibleTodos world_pending = Some [todo_a false]) by by_evaluation.
  split; [exact H1|]. split; [exact H2|]. split; [by_evaluation|].
  destruct (deleteTodo_removes_and_collapses 2 _ world_pending _ H1 H2)
    as (w' & vis' & Hrun & -> & Hv & Ha & Hs & _).
  exists w'. split; [exact Hrun|]. split; [exact Hv|]. split; [exact Ha|exact Hs].
Defined.

Lemma deleteTodo_then_addNewTodo_is_stored_witness :
  objs world_completed !! 1 = Some (todo_a true)
  /\ visibleTodos world_completed = Some [todo_a true]
  /\ currentUrl world_completed = str "/completed"
  /\ exists w1 w2,
       deleteTodo 1 world_completed = Some (tt, w1)
       /\ addNewTodo 5 (Enter (str "c")) w1 = Some ([], w2)
       /\ stored w2 = Some [mkTodo 5 (str "c") false].
Proof.
  assert (H1 : objs world_completed !! 1 = Some (todo_a true)) by by_evaluation.
  assert (H2 : visibleTodos world_completed = Some [todo_a true])
    by by_evaluation.
  split; [exact H1|]. split; [exact H2|]. split; [by_evaluation|].
  destruct (deleteTodo_then_addNewTodo_is_stored 1 _ 5 (str "c")
              world_completed _ H1 H2)
    as (w1 & w2 & vis2 & Hrun1 & Hrun2 & -> & _ & _ & Hs).
  exists w1, w2. split; [exact Hrun1|]. split; [exact Hrun2|exact Hs].
Defined.

Lemma toggleCheck_keeps_pending_count_witness :
  objs world_all !! 3 = Some (todo_b false)
  /\ allTodos world_all = Some [todo_a true; todo_b false]
  /\ visibleTodos world_all = Some [todo_a true; todo_b false]
  /\ exists w0 w1 w2,
       pendingTodos world_all = Some (1, w0)
       /\ toggleCheck 3 world_all = Some (tt, w1)
       /\ visibleTodos w1 = Some [todo_a true; todo_b true]
       /\ pendingTodos w1 = Some (1, w2).
Proof.
  assert (H1 : objs world_all !! 3 = Some (todo_b false)) by by_evaluation.
  assert (H2 : allTodos world_all = Some [todo_a true; todo_b false])
    by by_evaluation.
  assert (H3 : visibleTodos world_all = Some [todo_a true; todo_b false])
    by by_evaluation.
  split; [exact H1|]. split; [exact H2|]. split; [exact H3|].
  destruct (toggleCheck_keeps_pending_count 3 _ world_all _ _ H1 H2 H3)
    as (n & w0 & w1 & w2 & Hcount & Hrun & Hcount').
  assert (Hn : pendingTodos world_all
               = Some (1, exec pendingTodos world_all)) by by_evaluation.
  rewrite Hn in Hcount. injection Hcount as <- <-.
  assert (Hw1 : toggleCheck 3 world_all
                = Some (tt, exec (toggleCheck 3) world_all)) by by_evaluation.
  rewrite Hw1 in Hrun. injection Hrun as <-.
  eexists _, _, w2. split; [exact Hn|]. split; [exact Hw1|].
  split; [by_evaluation|exact Hcount'].
Defined.

Lemma toggleCheck_saved_off_completed_witness :
  currentUrl world_pending <> str "/completed"
  /\ objs world_pending !! 2 = Some (todo_a false)
  /\ allTodos world_pending = Some [todo_a false; todo_b true]
  /\ visibleTodos world_pending = Some [todo_a false]
  /\ exists w' w'',
       toggleCheck 2 world_pending = Some (tt, w')
       /\ stored w' = Some [todo_a true]
       /\ ngOnInit (construct (currentUrl world_pending) (localStorage w'))
          = Some (tt, w'')
       /\ allTodos w'' = Some [todo_a true]
       /\ visibleTodos w'' = Some [].
Proof.
  assert (H0 : currentUrl world_pending <> str "/completed")
    by (vm_compute; discriminate).
  assert (H1 : objs world_pending !! 2 = Some (todo_a false)) by by_evaluation.
  assert (H2 : allTodos world_pending = Some [todo_a false; todo_b true])
    by by_evaluation.
  assert (H3 : visibleTodos world_pending = Some [todo_a false])
    by by_evaluation.
  split; [exact H0|]. split; [exact H1|]. split; [exact H2|]. split; [exact H3|].
  destruct (toggleCheck_saved_off_completed 2 _ world_pending _ _ H0 H1 H2 H3)
    as (w' & w'' & Hrun & Hs & Hinit & Ha & Hv).
  exists w', w''. split; [exact Hrun|]. split; [exact Hs|].
  split; [exact Hinit|]. split; [exact Ha|exact Hv].
Defined.

Lemma clearCompleted_twice_witness :
  allTodos world_pending = Some [todo_a false; todo_b true]
  /\ visibleTodos world_pending = Some [todo_a false]
  /\ exists w1 w2,
       clearCompleted world_pending = Some (tt, w1)
       /\ stored w1 = allTodos w1
       /\ clearCompleted w1 = Some (tt, w2)
       /\ allTodos w2 = allTodos w1
       /\ visibleTodos w2 = visibleTodos w1
       /\ stored w2 = stored w1.
Proof.
  assert (H1 : allTodos world_pending = Some [todo_a false; todo_b true])
    by by_evaluation.
  assert (H2 : visibleTodos world_pending = Some [todo_a false])
    by by_evaluation.
  split; [exact H1|]. split; [exact H2|].
  exact (clearCompleted_twice world_pending _ _ H1 H2).
Defined.

Lemma pendingTodos_after_clearCompleted_witness :
  allTodos world_all = Some [todo_a true; todo_b false]
  /\ visibleTodos world_all = Some [todo_a true; todo_b false]
  /\ exists w1 w2,
       clearCompleted world_all = Some (tt, w1)
       /\ allTodos w1 = Some [todo_b false]
       /\ pendingTodos w1 = Some (1, w2).
Proof.
  assert (H1 : allTodos world_all = Some [todo_a true; todo_b false])
    by by_evaluation.
  assert (H2 : visibleTodos world_all = Some [todo_a true; todo_b false])
    by by_evaluation.
  split; [exact H1|]. split; [exact H2|].
  destruct (pendingTodos_after_clearCompleted world_all _ _ H1 H2)
    as (w1 & all1 & w2 & Hrun & Ha & Hcount).
  assert (Hw1 : clearCompleted world_all
                = Some (tt, exec clearCompleted world_all)) by by_evaluation.
  rewrite Hw1 in Hrun. injection Hrun as <-.
  assert (Ha1 : allTodos (exec clearCompleted world_all) = Some [todo_b false])
    by by_evaluation.
  rewrite Ha1 in Ha. injection Ha as <-.
  eexists _, w2. split; [exact Hw1|]. split; [exact Ha1|exact Hcount].
Defined.


Lemma editTodo_other_key_assigns_and_saves_witness :
  str "z" <> str "Escape" /\ str "z" <> str "Enter"
  /\ todoSelectedToEdit world_editing = Some 1
  /\ objs world_editing !! 1 = Some (todo_a false)
  /\ allTodos world_editing = Some [todo_a false]
  /\ arrs world_editing !! tempTodos world_editing = Some [1]
  /\ visibleTodos world_editing = Some [todo_a false]
  /\ exists w' vis',
       editTodo (mkKeyboardEvent (str "z") (str "az")) world_editing
       = Some (tt, w')
       /\ visibleTodos w' = Some vis'
       /\ vis' !! 0 = Some (mkTodo 1 (str "az") false)
       /\ editMode w' = true.
Proof.
  assert (Ha : str "z" <> str "Escape") by (vm_compute; discriminate).
  assert (Hb : str "z" <> str "Enter") by (vm_compute; discriminate).
  assert (H0 : todoSelectedToEdit world_editing = Some 1) by by_evaluation.
  assert (H1 : objs world_editing !! 1 = Some (todo_a false)) by by_evaluation.
  assert (H2 : allTodos world_editing = Some [todo_a false]) by by_evaluation.
  assert (H3 : arrs world_editing !! tempTodos world_editing = Some [1])
    by by_evaluation.
  assert (H4 : visibleTodos world_editing = Some [todo_a false])
    by by_evaluation.
  split; [exact Ha|]. split; [exact Hb|]. split; [exact H0|]. split; [exact H1|].
  split; [exact H2|]. split; [exact H3|]. split; [exact H4|].
  destruct (editTodo_other_key_assigns_and_saves (str "z") (str "az")
              world_editing 1 _ _ _ _ Ha Hb H0 H1 H2 H3 H4)
    as (w' & all' & vis' & Hrun & _ & Hv & _ & He & _ & _ & Hsame & _).
  exists w', vis'. split; [exact Hrun|]. split; [exact Hv|].
  split; [exact (Hsame 0 eq_refl)|].
  transitivity (editMode world_editing); [exact He | by_evaluation].
Defined.

